(** * Apple-Data-Filter: the data-shaping pipeline of [src/App.js]

    A shallow embedding of the filter, sort and format stages of the
    [App] component, and of the event handlers that edit their criteria.

    Conventions of the embedding.

    - JavaScript numbers.  The pipeline compares numbers, takes the sign
      of a difference, and (in the formatter) divides by one billion.
      [number] has the two infinities, NaN and the finite values as exact
      integers: revenue, net income and the other amounts of the API are
      integers, the years read by [parseInt] are integers, and so are
      time values.  Comparing two doubles is comparing their real values,
      and the IEEE difference of two finite doubles has the sign of the
      real difference and is zero exactly when they are equal, so
      [number_sub] keeps the exact difference.  The one place where
      binary64 rounding is visible, [num / 1_000_000_000], is computed
      with the binary64 operations of [SpecFloat].  The sign of zero is
      never observable here and is not represented.  [Fin] admits every
      integer; the ones the program can hold are those that are binary64
      values, and the statements below hold for all of them.
    - Strings are [string]; a character stands for a code unit below 256.
    - A record field read from JSON is a [value]: a number, [null], or
      [undefined] for a missing property.  The [date] of a record is a
      string.
    - Arrays that are sorted in place live in a [heap] of array objects;
      the pure list functions describe their contents.
    - [Array.prototype.sort].  With a comparator that is consistent on
      the elements the language determines the result, and [Array_sort]
      computes it.  Otherwise the order is the engine's: [V8_sort] is the
      sort of V8 for arrays of fewer than 64 elements, and it agrees with
      [Array_sort] wherever the comparator is consistent. *)

From stdpp Require Import base option list gmap.
From Stdlib Require Import ZArith List String Ascii Bool Lia.
From Stdlib Require Import Permutation Sorted.
From Stdlib Require Import SpecFloat DecimalString.
From Stdlib Require DecimalPos DecimalN.
Import ListNotations.

Local Open Scope string_scope.
Local Open Scope list_scope.
Local Open Scope Z_scope.

#[local] Arguments String.append !_ _ / : assert.

(** * Part 1: the program *)

(** ** Numbers and values *)

Inductive number : Type :=
| NaN
| NegInf
| Fin (z : Z)
| PosInf.

Inductive value : Type :=
| Undefined
| Null
| Num (n : number).

Definition number_eq_dec (a b : number) : {a = b} + {a <> b}.
Proof. decide equality. apply Z.eq_dec. Defined.

Definition value_eq_dec (a b : value) : {a = b} + {a <> b}.
Proof. decide equality. apply number_eq_dec. Defined.

(** [ToNumber] on the values a field can hold: [undefined] is NaN and
    [null] is [+0]. *)
Definition ToNumber (v : value) : number :=
  match v with
  | Undefined => NaN
  | Null => Fin 0
  | Num n => n
  end.

(** [Number::lessThan]: [None] is the [undefined] answer given when an
    operand is NaN. *)
Definition IsLessThan (x y : number) : option bool :=
  match x, y with
  | NaN, _ | _, NaN => None
  | PosInf, _ => Some false
  | _, PosInf => Some true
  | _, NegInf => Some false
  | NegInf, _ => Some true
  | Fin a, Fin b => Some (a <? b)
  end.

(** [x >= y] is: [x < y] answered [false] ([true] and [undefined] both
    give [false]). *)
Definition js_ge (x y : number) : bool :=
  match IsLessThan x y with
  | Some false => true
  | _ => false
  end.

(** [x <= y] is: [y < x] answered [false]. *)
Definition js_le (x y : number) : bool :=
  match IsLessThan y x with
  | Some false => true
  | _ => false
  end.

(** [x > y] is: [y < x] answered [true]. *)
Definition js_gt (x y : number) : bool :=
  match IsLessThan y x with
  | Some true => true
  | _ => false
  end.

(** [x < y]. *)
Definition js_lt (x y : number) : bool :=
  match IsLessThan x y with
  | Some true => true
  | _ => false
  end.

(** [x - y] on numbers.  The finite case keeps the exact difference. *)
Definition number_sub (x y : number) : number :=
  match x, y with
  | NaN, _ | _, NaN => NaN
  | PosInf, PosInf => NaN
  | NegInf, NegInf => NaN
  | PosInf, _ => PosInf
  | NegInf, _ => NegInf
  | _, PosInf => NegInf
  | _, NegInf => PosInf
  | Fin a, Fin b => Fin (a - b)
  end.

(** The Number value of a mathematical integer: round to nearest with 53
    significant bits, ties to even, and overflow to infinity. *)
Definition round_nearest_even_53 (m : Z) : Z :=
  if m <? 2 ^ 53 then m
  else
    let e := Z.log2 m - 52 in
    let q := m / 2 ^ e in
    let r := m mod 2 ^ e in
    let half := 2 ^ (e - 1) in
    let q' := if r <? half then q
              else if half <? r then q + 1
              else if Z.even q then q else q + 1 in
    q' * 2 ^ e.

Definition number_of_Z (z : Z) : number :=
  let m := round_nearest_even_53 (Z.abs z) in
  if 2 ^ 1024 <=? m then (if z <? 0 then NegInf else PosInf)
  else Fin (Z.sgn z * m).

(** ** Strings: [split] and [parseInt] *)

Definition code (c : ascii) : Z := Z.of_nat (nat_of_ascii c).

(** [s.split(sep)] for a one-character separator. *)
Fixpoint split_aux (sep : ascii) (s : string) (cur : string) : list string :=
  match s with
  | EmptyString => [cur]
  | String c t =>
      if Ascii.eqb c sep then cur :: split_aux sep t EmptyString
      else split_aux sep t (cur ++ String c EmptyString)%string
  end.

Definition split (sep : ascii) (s : string) : list string :=
  split_aux sep s EmptyString.

(** White space and line terminators among the code units below 256. *)
Definition is_white_space (c : ascii) : bool :=
  let n := code c in
  (n =? 9) || (n =? 10) || (n =? 11) || (n =? 12) || (n =? 13)
  || (n =? 32) || (n =? 160).

Fixpoint trim_start (s : string) : string :=
  match s with
  | EmptyString => EmptyString
  | String c t => if is_white_space c then trim_start t else s
  end.

(** The value of a character as a digit, in any radix up to 36. *)
Definition digit_value (c : ascii) : option Z :=
  let n := code c in
  if (48 <=? n) && (n <=? 57) then Some (n - 48)
  else if (97 <=? n) && (n <=? 122) then Some (n - 87)
  else if (65 <=? n) && (n <=? 90) then Some (n - 55)
  else None.

(** The longest prefix of radix-[R] digits, as digit values. *)
Fixpoint radix_digits (R : Z) (s : string) : list Z :=
  match s with
  | EmptyString => []
  | String c t =>
      match digit_value c with
      | Some d => if d <? R then d :: radix_digits R t else []
      | None => []
      end
  end.

Definition digits_value (R : Z) (ds : list Z) : Z :=
  fold_left (fun acc d => acc * R + d) ds 0.

(** A leading [+] (43) or [-] (45) is removed; [-] makes the sign -1. *)
Definition strip_sign (s : string) : string :=
  match s with
  | String c t => if (code c =? 43) || (code c =? 45) then t else s
  | EmptyString => s
  end.

Definition sign_of (s : string) : Z :=
  match s with
  | String c _ => if code c =? 45 then -1 else 1
  | EmptyString => 1
  end.

(** A leading [0x] or [0X] is removed and makes the radix 16. *)
Definition strip_hex_prefix (s : string) : Z * string :=
  match s with
  | String c0 (String c1 t) =>
      if (code c0 =? 48) && ((code c1 =? 120) || (code c1 =? 88))
      then (16, t) else (10, s)
  | _ => (10, s)
  end.

(** [parseInt(string)] with the radix argument absent. *)
Definition parseInt (inputString : string) : number :=
  let S0 := trim_start inputString in
  let sign := sign_of S0 in
  let S1 := strip_sign S0 in
  let '(R, S2) := strip_hex_prefix S1 in
  match radix_digits R S2 with
  | [] => NaN
  | ds => number_of_Z (sign * digits_value R ds)
  end.

(** ** The data model *)

Record FinancialRecord : Type := {
  date : string;
  revenue : value;
  netIncome : value;
  grossProfit : value;
  operatingIncome : value;
  eps : value
}.

Record YearRange : Type := { start : number; end_ : number }.
Record AmountRange : Type := { min : number; max : number }.

Record Filters : Type := {
  yearRange : YearRange;
  revenueRange : AmountRange;
  netIncomeRange : AmountRange
}.

Record SortConfig : Type := { key : string; direction : string }.

(** The state cells of [App].  [data] is [null] until the fetch resolves. *)
Record State : Type := {
  data : option (list FinancialRecord);
  filteredData : list FinancialRecord;
  loading : bool;
  error : option string;
  isFilterVisible : bool;
  filters : Filters;
  sortConfig : SortConfig
}.

Definition initialFilters : Filters :=
  {| yearRange := {| start := Fin 2020; end_ := Fin 2024 |};
     revenueRange := {| min := Fin 0; max := PosInf |};
     netIncomeRange := {| min := Fin 0; max := PosInf |} |}.

Definition initialSortConfig : SortConfig :=
  {| key := "date"; direction := "asc" |}.

Definition initialState : State :=
  {| data := None; filteredData := []; loading := true; error := None;
     isFilterVisible := false; filters := initialFilters;
     sortConfig := initialSortConfig |}.

Definition setFilteredData (l : list FinancialRecord) (st : State) : State :=
  {| data := data st; filteredData := l; loading := loading st;
     error := error st; isFilterVisible := isFilterVisible st;
     filters := filters st; sortConfig := sortConfig st |}.

Definition setFilters (f : Filters) (st : State) : State :=
  {| data := data st; filteredData := filteredData st; loading := loading st;
     error := error st; isFilterVisible := isFilterVisible st;
     filters := f; sortConfig := sortConfig st |}.

Definition setSortConfig (c : SortConfig) (st : State) : State :=
  {| data := data st; filteredData := filteredData st; loading := loading st;
     error := error st; isFilterVisible := isFilterVisible st;
     filters := filters st; sortConfig := c |}.

Definition setIsFilterVisible (b : bool) (st : State) : State :=
  {| data := data st; filteredData := filteredData st; loading := loading st;
     error := error st; isFilterVisible := b;
     filters := filters st; sortConfig := sortConfig st |}.

(** ** Filter stage: [applyFilters] *)

(** [array[0]]; [split] never returns an empty array. *)
Definition first_piece (l : list string) : string :=
  match l with
  | p :: _ => p
  | [] => EmptyString
  end.

(** The callback given to [data.filter]. *)
Definition filterCallback (fs : Filters) (item : FinancialRecord) : bool :=
  let year := parseInt (first_piece (split "-" (date item))) in
  js_ge year (start (yearRange fs)) &&
  js_le year (end_ (yearRange fs)) &&
  js_ge (ToNumber (revenue item)) (min (revenueRange fs)) &&
  js_le (ToNumber (revenue item)) (max (revenueRange fs)) &&
  js_ge (ToNumber (netIncome item)) (min (netIncomeRange fs)) &&
  js_le (ToNumber (netIncome item)) (max (netIncomeRange fs)).

(** [data.filter(item => ...)]: a new array with the items the callback
    accepts. *)
Definition filterRecords (fs : Filters) (records : list FinancialRecord)
  : list FinancialRecord :=
  List.filter (filterCallback fs) records.

Definition applyFilters (st : State) : State :=
  match data st with
  | Some d => setFilteredData (filterRecords (filters st) d) st
  | None => st
  end.

(** ** [handleFilterChange] and [toggleFilters] *)

(** The value stored for the edited bound. *)
Definition boundValue (filterKey : option string) (value : string) : number :=
  if String.eqb value EmptyString
  then (if match filterKey with
           | Some k => String.eqb k "max"
           | None => false
           end
        then PosInf else Fin 0)
  else parseInt value.

(** [{...prevFilters, [filterType]: {...prevFilters[filterType],
    [filterKey]: v}}].  The component reads six properties of this object
    and no others; a name outside them adds a property that nothing
    reads, and leaves the six as they were. *)
Definition updateFilters (filterType : string) (filterKey : option string)
    (v : number) (prevFilters : Filters) : Filters :=
  let keyIs k := match filterKey with
                 | Some k' => String.eqb k' k
                 | None => false
                 end in
  if String.eqb filterType "yearRange" then
    let r := yearRange prevFilters in
    let r' := if keyIs "start" then {| start := v; end_ := end_ r |}
              else if keyIs "end" then {| start := start r; end_ := v |}
              else r in
    {| yearRange := r'; revenueRange := revenueRange prevFilters;
       netIncomeRange := netIncomeRange prevFilters |}
  else
    let upd (r : AmountRange) :=
      if keyIs "min" then {| min := v; max := max r |}
      else if keyIs "max" then {| min := min r; max := v |}
      else r in
    if String.eqb filterType "revenueRange" then
      {| yearRange := yearRange prevFilters;
         revenueRange := upd (revenueRange prevFilters);
         netIncomeRange := netIncomeRange prevFilters |}
    else if String.eqb filterType "netIncomeRange" then
      {| yearRange := yearRange prevFilters;
         revenueRange := revenueRange prevFilters;
         netIncomeRange := upd (netIncomeRange prevFilters) |}
    else prevFilters.

(** The updater passed to [setFilters]: [name.split('.')] gives the
    filter type and, when there is a second piece, the filter key. *)
Definition newFilters (name value : string) (prevFilters : Filters) : Filters :=
  let parts := split "." name in
  let filterType := first_piece parts in
  let filterKey := nth_error parts 1 in
  updateFilters filterType filterKey (boundValue filterKey value) prevFilters.

(** The handler: [applyFilters] takes no argument, so the call inside the
    updater filters with the criteria of the current render; the new
    criteria are then stored.  The effect that follows a change of
    [filters] is [applyFilters] on the new state. *)
Definition handleFilterChange (name value : string) (st : State) : State :=
  setFilters (newFilters name value (filters st)) (applyFilters st).

Definition filtersEffect (st : State) : State := applyFilters st.

Definition toggleFilters (st : State) : State :=
  setIsFilterVisible (negb (isFilterVisible st)) st.

(** ** [handleSort] *)

Definition handleSort (k : string) (st : State) : State :=
  let direction :=
    if String.eqb (key (sortConfig st)) k
       && String.eqb (direction (sortConfig st)) "asc"
    then "desc" else "asc" in
  setSortConfig {| key := k; direction := direction |} st.

(** ** Sort stage: [sortedData] *)

(** What the host gives for [new Date(s)]: the time value of the date
    object, NaN for an invalid date.  Parsing is left to the host: outside
    the ISO forms it is implementation-defined. *)
Class Host : Type := { Date_parse : string -> number }.

(** [a[sortConfig.key]] for the two numeric sort keys. *)
Definition getField (k : string) (a : FinancialRecord) : value :=
  if String.eqb k "revenue" then revenue a
  else if String.eqb k "netIncome" then netIncome a
  else Undefined.

(** The comparator given to [sort]. *)
Definition compareFn `{Host} (cfg : SortConfig) (a b : FinancialRecord)
  : number :=
  if String.eqb (key cfg) "date" then
    let dateA := Date_parse (date a) in
    let dateB := Date_parse (date b) in
    if String.eqb (direction cfg) "asc"
    then number_sub dateA dateB else number_sub dateB dateA
  else if String.eqb (key cfg) "revenue" || String.eqb (key cfg) "netIncome"
  then
    if String.eqb (direction cfg) "asc"
    then number_sub (ToNumber (getField (key cfg) a))
                    (ToNumber (getField (key cfg) b))
    else number_sub (ToNumber (getField (key cfg) b))
                    (ToNumber (getField (key cfg) a))
  else Fin 0.

Section ArraySort.
Context {A : Type}.
Variable comparefn : A -> A -> number.

(** [SortCompare] for elements that are not [undefined]: a NaN answer of
    the comparator counts as [+0]. *)
Definition SortCompare (x y : A) : number :=
  match comparefn x y with
  | NaN => Fin 0
  | v => v
  end.

(** [x] goes in front of the first element it is not greater than. *)
Fixpoint insert_sorted (x : A) (l : list A) : list A :=
  match l with
  | [] => [x]
  | y :: t =>
      if js_gt (SortCompare x y) (Fin 0) then y :: insert_sorted x t
      else x :: y :: t
  end.

(** [Array.prototype.sort] is a stable sort; with a consistent comparator
    its result is determined (see [Array_sort_determined]), and this
    insertion sort computes it.  With a comparator that is not consistent
    on the elements the order is the implementation's: see [V8_sort]. *)
Definition Array_sort (l : list A) : list A :=
  fold_right insert_sorted [] l.

(** *** The sort of the V8 engine

    The language leaves the order to the implementation when the
    comparator is not consistent.  V8, the engine of Chrome and Node.js,
    sorts an array of fewer than 64 elements as a single run:
    [CountAndMakeRun] finds the run the array begins with and reverses it
    when it is strictly descending, and [BinaryInsertionSort] places the
    elements after the run one by one. *)

(** [order < 0]: the comparator puts [x] before [y]. *)
Definition precedes (x y : A) : bool := js_lt (SortCompare x y) (Fin 0).

(** The loop of [CountAndMakeRun]: how many of the elements that follow
    [previousElement] continue the run.  A descending run ends at the
    first [order >= 0], an ascending one at the first [order < 0]. *)
Fixpoint run_continues (isDescending : bool) (previousElement : A)
    (l : list A) : nat :=
  match l with
  | [] => O
  | currentElement :: t =>
      if Bool.eqb (precedes currentElement previousElement) isDescending
      then S (run_continues isDescending currentElement t)
      else O
  end.

(** The length of the first run, and the array once a descending run has
    been reversed. *)
Definition CountAndMakeRun (workArray : list A) : nat * list A :=
  match workArray with
  | elementHigh :: elementLow :: t =>
      let isDescending := precedes elementLow elementHigh in
      let runLength := (2 + run_continues isDescending elementLow t)%nat in
      (runLength,
       if isDescending
       then rev (firstn runLength workArray) ++ skipn runLength workArray
       else workArray)
  | _ => (List.length workArray, workArray)
  end.

(** The [while] loop of [BinaryInsertionSort]: the place of [pivot] among
    the elements [left], ..., [right - 1] of the sorted part. *)
Fixpoint insertion_point (fuel : nat) (sorted : list A) (pivot : A)
    (left right : nat) : nat :=
  match fuel with
  | O => left
  | S fuel' =>
      if (left <? right)%nat then
        let mid := (left + Nat.div2 (right - left))%nat in
        match nth_error sorted mid with
        | Some y =>
            if precedes pivot y
            then insertion_point fuel' sorted pivot left mid
            else insertion_point fuel' sorted pivot (S mid) right
        | None => left
        end
      else left
  end.

(** One round of the [for] loop: the elements from the insertion point on
    move up by one and [pivot] takes the place. *)
Definition insert_pivot (sorted : list A) (pivot : A) : list A :=
  let left :=
    insertion_point (List.length sorted) sorted pivot 0 (List.length sorted) in
  firstn left sorted ++ pivot :: skipn left sorted.

(** [BinaryInsertionSort(low, start, high)] with the array given as its
    sorted part [low, start) and the part [start, high) still to place. *)
Definition BinaryInsertionSort (sorted rest : list A) : list A :=
  fold_left insert_pivot rest sorted.

Definition V8_sort (l : list A) : list A :=
  let '(runLength, workArray) := CountAndMakeRun l in
  BinaryInsertionSort (firstn runLength workArray) (skipn runLength workArray).

(** [after x y]: the comparator puts [x] after [y]. *)
Definition after (x y : A) : bool :=
  js_gt (SortCompare x y) (Fin 0).

(** [x] may stand before [y]. *)
Definition not_after (x y : A) : Prop := after x y = false.

(** The two compare as equal, in this order and in the other. *)
Definition tied (x y : A) : bool := negb (after x y) && negb (after y x).

(** The comparator is consistent on the elements of [l]: of two elements
    one may stand before the other, and "may stand before" is
    transitive. *)
Definition consistent_on (l : list A) : Prop :=
  (forall a b, In a l -> In b l -> not_after a b \/ not_after b a)
  /\ (forall a b c, In a l -> In b l -> In c l ->
                    not_after a b -> not_after b c -> not_after a c).
End ArraySort.

(** [if (sortConfig.key)]: the empty string is the one falsy key. *)
Definition truthy (s : string) : bool := negb (String.eqb s EmptyString).

(** The contents of the array [sortedData] returns. *)
Definition sortedData `{Host} (cfg : SortConfig)
    (filteredData : list FinancialRecord) : list FinancialRecord :=
  let sortableData := filteredData in
  if truthy (key cfg) then Array_sort (compareFn cfg) sortableData
  else sortableData.

(** *** Arrays as objects *)

Definition loc : Type := positive.
Abbreviation heap := (gmap loc (list FinancialRecord)).

(** [[...src]]: a new array with the elements of [src]. *)
Definition spread (src : loc) (h : heap) : option (loc * heap) :=
  match h !! src with
  | Some xs => let l := fresh (dom h) in Some (l, <[l := xs]> h)
  | None => None
  end.

(** [arr.sort(comparefn)] sorts the array object in place. *)
Definition sort_in_place
    (comparefn : FinancialRecord -> FinancialRecord -> number)
    (arr : loc) (h : heap) : option heap :=
  match h !! arr with
  | Some xs => Some (<[arr := Array_sort comparefn xs]> h)
  | None => None
  end.

(** The body of the [useMemo] callback, on array objects. *)
Definition sortedData_heap `{Host} (cfg : SortConfig) (filteredData : loc)
    (h : heap) : option (loc * heap) :=
  match spread filteredData h with
  | Some (sortableData, h1) =>
      if truthy (key cfg)
      then match sort_in_place (compareFn cfg) sortableData h1 with
           | Some h2 => Some (sortableData, h2)
           | None => None
           end
      else Some (sortableData, h1)
  | None => None
  end.

(** ** Presentation formatter: [formatToBillions] *)

Inductive exn : Type := RangeError | TypeError.

(** The outcome of an expression: a value, or a thrown exception. *)
Inductive completion (A : Type) : Type :=
| Normal (a : A)
| Throw (e : exn).
Arguments Normal {A} a.
Arguments Throw {A} e.

Abbreviation binary64 := spec_float.

(** The binary64 value of a number. *)
Definition to_binary64 (n : number) : binary64 :=
  match n with
  | NaN => S754_nan
  | PosInf => S754_infinity false
  | NegInf => S754_infinity true
  | Fin z => binary_normalize 53 1024 z 0 false
  end.

Definition binary64_div (x y : binary64) : binary64 := SFdiv 53 1024 x y.

(** The decimal digits of a natural number, a single zero for 0. *)
Definition decimal (n : Z) : string :=
  NilZero.string_of_uint (N.to_uint (Z.to_N n)).

Fixpoint zeros (k : nat) : string :=
  match k with
  | O => EmptyString
  | S k' => String "0" (zeros k')
  end.

(** The integer [n] for which [n / 10^f - m * 2^e] is closest to zero, the
    larger one of two. *)
Definition nearest_scaled (f : Z) (m : positive) (e : Z) : Z :=
  if 0 <=? e then Zpos m * 2 ^ e * 10 ^ f
  else (2 * Zpos m * 10 ^ f + 2 ^ (- e)) / 2 ^ (1 - e).

(** The digits of [n], padded to [f + 1] digits, with a point before the
    last [f] of them. *)
Definition fixed_string (f : nat) (n : Z) : string :=
  let m := decimal n in
  match f with
  | O => m
  | _ =>
      let k := String.length m in
      let m' := if (k <=? f)%nat then (zeros (f + 1 - k) ++ m)%string else m in
      let k' := String.length m' in
      (substring 0 (k' - f) m' ++ "." ++ substring (k' - f) f m')%string
  end.

(** [Number::toString] for a finite integer [X] of at least [10^21] that
    is a binary64 value: the least number [k] of digits, and the [k]-digit
    decimal closest to [X], whose Number value is [X]. *)
Fixpoint shortest_decimal (fuel : nat) (k : Z) (d : Z) (X : Z) : Z :=
  match fuel with
  | O => X
  | S fuel' =>
      let p := 10 ^ (d - k) in
      let lo := X / p * p in
      let hi := lo + p in
      let ok v :=
        if number_eq_dec (number_of_Z v) (Fin X) then true else false in
      if ok lo && ok hi then
        (if X - lo <? hi - X then lo
         else if hi - X <? X - lo then hi
         else if Z.even (lo / p) then lo else hi)
      else if ok lo then lo
      else if ok hi then hi
      else shortest_decimal fuel' (k + 1) d X
  end.

Fixpoint strip_trailing_zeros (fuel : nat) (s : Z) : Z :=
  match fuel with
  | O => s
  | S fuel' =>
      if (s mod 10 =? 0) && negb (s =? 0)
      then strip_trailing_zeros fuel' (s / 10) else s
  end.

Definition exponential_string (X : Z) : string :=
  let d := Z.of_nat (String.length (decimal X)) in
  let v := shortest_decimal (Z.to_nat d) 1 d X in
  let n := Z.of_nat (String.length (decimal v)) in
  let digits := decimal (strip_trailing_zeros (Z.to_nat n) v) in
  match digits with
  | String c EmptyString =>
      (String c EmptyString ++ "e+" ++ decimal (n - 1))%string
  | String c rest =>
      (String c EmptyString ++ "." ++ rest ++ "e+" ++ decimal (n - 1))%string
  | EmptyString => EmptyString
  end.

(** [Number.prototype.toFixed(fractionDigits)] on a Number. *)
Definition toFixed (fractionDigits : Z) (x : binary64) : completion string :=
  if (fractionDigits <? 0) || (100 <? fractionDigits) then Throw RangeError
  else
    match x with
    | S754_nan => Normal "NaN"
    | S754_infinity false => Normal "Infinity"
    | S754_infinity true => Normal "-Infinity"
    | S754_zero _ => Normal (fixed_string (Z.to_nat fractionDigits) 0)
    | S754_finite sx m e =>
        let s := if sx then "-" else EmptyString in
        if (0 <=? e) && (10 ^ 21 <=? Zpos m * 2 ^ e)
        then Normal (s ++ exponential_string (Zpos m * 2 ^ e))%string
        else Normal (s ++ fixed_string (Z.to_nat fractionDigits)
                                       (nearest_scaled fractionDigits m e))%string
    end.

Definition formatToBillions (num : value) : completion string :=
  match num with
  | Null | Undefined => Normal "N/A"
  | Num n =>
      match toFixed 3 (binary64_div (to_binary64 n)
                                    (to_binary64 (Fin 1000000000))) with
      | Normal formattedNumber => Normal (formattedNumber ++ " B")%string
      | Throw e => Throw e
      end
  end.

(** ** The fetch effect *)

Definition setData (d : option (list FinancialRecord)) (st : State) : State :=
  {| data := d; filteredData := filteredData st; loading := loading st;
     error := error st; isFilterVisible := isFilterVisible st;
     filters := filters st; sortConfig := sortConfig st |}.

Definition setLoading (b : bool) (st : State) : State :=
  {| data := data st; filteredData := filteredData st; loading := b;
     error := error st; isFilterVisible := isFilterVisible st;
     filters := filters st; sortConfig := sortConfig st |}.

Definition setError (e : option string) (st : State) : State :=
  {| data := data st; filteredData := filteredData st; loading := loading st;
     error := e; isFilterVisible := isFilterVisible st;
     filters := filters st; sortConfig := sortConfig st |}.

(** How [axios.get(url)] settles: with the array of the response body, or
    with an error that carries a message. *)
Inductive Response : Type :=
| Resolved (responseData : list FinancialRecord)
| Rejected (message : string).

(** The state changes of [fetchData] once the request has settled: the
    [try] or the [catch] branch, then [finally]. *)
Definition fetchData_settled (r : Response) (st : State) : State :=
  setLoading false
    match r with
    | Resolved responseData =>
        setFilteredData responseData (setData (Some responseData) st)
    | Rejected message => setError (Some message) st
    end.

(** ** The component as a transition system *)

Inductive Event : Type :=
| FilterChange (name value : string)
| SortClick (k : string)
| ToggleClick.

Inductive Action : Type :=
| Fetched (r : Response)
| UI (e : Event).

(** One action and the effect it triggers.  The effect on
    [[filters, applyFilters]] runs when [filters] or [data] has changed:
    after a filter change and after a resolved fetch. *)
Definition act (a : Action) (st : State) : State :=
  match a with
  | Fetched (Resolved d) => filtersEffect (fetchData_settled (Resolved d) st)
  | Fetched (Rejected m) => fetchData_settled (Rejected m) st
  | UI (FilterChange name value) =>
      filtersEffect (handleFilterChange name value st)
  | UI (SortClick k) => handleSort k st
  | UI ToggleClick => toggleFilters st
  end.

Definition run (acts : list Action) (st : State) : State :=
  fold_left (fun s a => act a s) acts st.

(** The state after the first render: the effects have run once, with
    [data] still [null]. *)
Definition mounted : State := filtersEffect initialState.

(** ** Rendering *)

(** The two conditional marks after a column title. *)
Record Marks : Type := { up : bool; down : bool }.

Definition headerMarks (k : string) (cfg : SortConfig) : Marks :=
  {| up := String.eqb (key cfg) k && String.eqb (direction cfg) "asc";
     down := String.eqb (key cfg) k && String.eqb (direction cfg) "desc" |}.

Record Row : Type := {
  borderBottom : bool;
  dateCell : string;
  revenueCell : completion string;
  netIncomeCell : completion string;
  grossProfitCell : completion string;
  epsCell : value;
  operatingIncomeCell : completion string
}.

Record Table : Type := {
  yearHeader : Marks;
  revenueHeader : Marks;
  netIncomeHeader : Marks;
  rows : list Row
}.

(** [Array.from({ length: 5 }, (_, i) => 2020 + i)]. *)
Definition yearOptions : list Z :=
  map (fun i => 2020 + Z.of_nat i) (seq 0 5).

Record Panel : Type := {
  startValue : number;
  endValue : number;
  startOptions : list Z;
  endOptions : list Z;
  minRevenueValue : number;
  maxRevenueValue : number;
  minNetIncomeValue : number;
  maxNetIncomeValue : number
}.

Inductive View : Type :=
| LoadingView
| ErrorView (message : string)
| PageView (buttonLabel : string) (panel : option Panel)
           (table : option Table).

(** [sortedData.map((item, index) => ...)], from index [index]. *)
Fixpoint renderRows (len : nat) (index : nat) (items : list FinancialRecord)
  : list Row :=
  match items with
  | [] => []
  | item :: rest =>
      {| borderBottom := negb (index =? len - 1)%nat;
         dateCell := date item;
         revenueCell := formatToBillions (revenue item);
         netIncomeCell := formatToBillions (netIncome item);
         grossProfitCell := formatToBillions (grossProfit item);
         epsCell := eps item;
         operatingIncomeCell := formatToBillions (operatingIncome item) |}
      :: renderRows len (S index) rest
  end.

(** [if (error)]: [null] and the empty string are falsy. *)
Definition error_shown (e : option string) : option string :=
  match e with
  | Some m => if String.eqb m EmptyString then None else Some m
  | None => None
  end.

Definition render `{Host} (st : State) : View :=
  if loading st then LoadingView
  else
    match error_shown (error st) with
    | Some m => ErrorView m
    | None =>
        PageView
          (if isFilterVisible st then "Hide Filters" else "Show Filters")
          (if isFilterVisible st
           then Some {| startValue := start (yearRange (filters st));
                        endValue := end_ (yearRange (filters st));
                        startOptions := yearOptions;
                        endOptions := yearOptions;
                        minRevenueValue := min (revenueRange (filters st));
                        maxRevenueValue := max (revenueRange (filters st));
                        minNetIncomeValue := min (netIncomeRange (filters st));
                        maxNetIncomeValue := max (netIncomeRange (filters st)) |}
           else None)
          (if (0 <? List.length (filteredData st))%nat
           then
             let sorted := sortedData (sortConfig st) (filteredData st) in
             Some {| yearHeader := headerMarks "date" (sortConfig st);
                     revenueHeader := headerMarks "revenue" (sortConfig st);
                     netIncomeHeader := headerMarks "netIncome" (sortConfig st);
                     rows := renderRows (List.length sorted) 0 sorted |}
           else None)
    end.

(** * Part 2: the contracts, and the vocabulary they are stated in *)

(** ** The filter contract in the words of the specification *)

(** The order of the extended number line; NaN is related to nothing. *)
Definition num_leq (a b : number) : Prop :=
  match a, b with
  | NaN, _ | _, NaN => False
  | NegInf, _ => True
  | _, PosInf => True
  | Fin x, Fin y => x <= y
  | _, _ => False
  end.

Definition is_decimal_digit (c : ascii) : bool :=
  (48 <=? code c) && (code c <=? 57).

Fixpoint leading_digits (s : string) : list Z :=
  match s with
  | EmptyString => []
  | String c t =>
      if is_decimal_digit c then (code c - 48) :: leading_digits t else []
  end.




Definition has_hex_prefix (s : string) : bool :=
  match s with
  | String c0 (String c1 _) =>
      (code c0 =? 48) && ((code c1 =? 120) || (code c1 =? 88))
  | _ => false
  end.

(** Dates that start with a run of at most fifteen decimal digits, not
    the prefix of a hexadecimal literal: every [YYYY-MM-DD] date is one. *)
Definition plain_year (d : string) : bool :=
  match leading_digits d with
  | [] => false
  | ds => negb (has_hex_prefix d) && (Z.of_nat (List.length ds) <=? 15)
  end.

(** The form [YYYY-MM-DD] of the data model. *)
Definition iso_date (d : string) : bool :=
  match list_ascii_of_string d with
  | [y1; y2; y3; y4; s1; m1; m2; s2; d1; d2] =>
      forallb is_decimal_digit [y1; y2; y3; y4; m1; m2; d1; d2]
      && (code s1 =? 45) && (code s2 =? 45)
  | _ => false
  end.



(** The part of a string before the first separator. *)
Fixpoint before (sep : ascii) (s : string) : string :=
  match s with
  | EmptyString => EmptyString
  | String c t =>
      if Ascii.eqb c sep then EmptyString else String c (before sep t)
  end.

Definition with_revenue (v : value) (r : FinancialRecord) : FinancialRecord :=
  {| date := date r; revenue := v; netIncome := netIncome r;
     grossProfit := grossProfit r; operatingIncome := operatingIncome r;
     eps := eps r |}.

Definition with_netIncome (v : value) (r : FinancialRecord) : FinancialRecord :=
  {| date := date r; revenue := revenue r; netIncome := v;
     grossProfit := grossProfit r; operatingIncome := operatingIncome r;
     eps := eps r |}.

(** ** Vocabulary of the sort contract *)

(** The number a record is sorted by, for the three recognized keys. *)
Definition sortKey `{Host} (k : string) (r : FinancialRecord) : number :=
  if String.eqb k "date" then Date_parse (date r)
  else ToNumber (getField k r).

Definition recognized (k : string) : bool :=
  String.eqb k "date" || String.eqb k "revenue" || String.eqb k "netIncome".

Definition ascending (k : string) : SortConfig :=
  {| key := k; direction := "asc" |}.

Definition descending (k : string) : SortConfig :=
  {| key := k; direction := "desc" |}.

(** No two records of the list compare as equal. *)
Definition no_ties `{Host} (k : string) (records : list FinancialRecord)
  : Prop :=
  ForallOrdPairs
    (fun a b => SortCompare (compareFn (ascending k)) a b <> Fin 0) records.

Definition record_eq_dec (a b : FinancialRecord) : {a = b} + {a <> b}.
Proof. decide equality; first [apply value_eq_dec | apply string_dec]. Defined.

Definition one_of (a b r : FinancialRecord) : bool :=
  if record_eq_dec r a then true
  else if record_eq_dec r b then true else false.

(** Three clicks on the same header. *)
Definition clicks3 (k : string) (st : State) : State :=
  handleSort k (handleSort k (handleSort k st)).

(** ** Vocabulary of the formatter contract *)

(** The binary64 quotient [num / 1_000_000_000]. *)
Definition billions (n : number) : binary64 :=
  binary64_div (to_binary64 n) (to_binary64 (Fin 1000000000)).

Definition sign_string (sx : bool) : string :=
  if sx then "-" else EmptyString.

(** Strings of the form [digits.ddd B], with an optional minus sign. *)
Definition three_digits_B (s : string) : bool :=
  match s with
  | String d1 (String d2 (String d3 rest)) =>
      is_decimal_digit d1 && is_decimal_digit d2 && is_decimal_digit d3
      && String.eqb rest " B"
  | _ => false
  end.

Definition point_three_B (s : string) : bool :=
  match s with
  | String c t => (code c =? 46) && three_digits_B t
  | EmptyString => false
  end.

Fixpoint int_part_then (s : string) : bool :=
  match s with
  | String c t => is_decimal_digit c && (int_part_then t || point_three_B t)
  | EmptyString => false
  end.

Definition fixed3_B (s : string) : bool :=
  match s with
  | String c t => if code c =? 45 then int_part_then t else int_part_then s
  | EmptyString => false
  end.

Fixpoint all_digits (s : string) : bool :=
  match s with
  | String c t => is_decimal_digit c && all_digits t
  | EmptyString => true
  end.

(** ** A host and sample data *)

(** A host for the examples: it reads the date-only ISO form
    [YYYY-MM-DD] of a calendar day, as every host does, and nothing
    else. *)
Definition days_from_civil (y m d : Z) : Z :=
  let y' := if m <=? 2 then y - 1 else y in
  let era := y' / 400 in
  let yoe := y' - era * 400 in
  let mp := if 2 <? m then m - 3 else m + 9 in
  let doy := (153 * mp + 2) / 5 + d - 1 in
  let doe := yoe * 365 + yoe / 4 - yoe / 100 + doy in
  era * 146097 + doe - 719468.

Definition days_in_month (y m : Z) : Z :=
  if m =? 2 then
    (if ((y mod 4 =? 0) && negb (y mod 100 =? 0)) || (y mod 400 =? 0)
     then 29 else 28)
  else if (m =? 4) || (m =? 6) || (m =? 9) || (m =? 11) then 30 else 31.

Definition iso_Date_parse (s : string) : number :=
  if iso_date s then
    let y := digits_value 10 (leading_digits (substring 0 4 s)) in
    let m := digits_value 10 (leading_digits (substring 5 2 s)) in
    let d := digits_value 10 (leading_digits (substring 8 2 s)) in
    if (1 <=? m) && (m <=? 12) && (1 <=? d) && (d <=? days_in_month y m)
    then Fin (days_from_civil y m d * 86400000)
    else NaN
  else NaN.

Definition iso_host : Host := {| Date_parse := iso_Date_parse |}.


Definition null_revenue_record : FinancialRecord :=
  {| date := "2022-09-24"; revenue := Null; netIncome := Num (Fin 5);
     grossProfit := Null; operatingIncome := Null; eps := Null |}.

Definition undefined_revenue_record : FinancialRecord :=
  with_revenue Undefined null_revenue_record.

Definition record_of_year (y : string) (rev : Z) : FinancialRecord :=
  {| date := (y ++ "-09-30")%string; revenue := Num (Fin rev);
     netIncome := Num (Fin 1); grossProfit := Null; operatingIncome := Null;
     eps := Null |}.

Definition three_years : list FinancialRecord :=
  [record_of_year "2023" 30; record_of_year "2019" 10; record_of_year "2021" 20].

Definition tied_pair : list FinancialRecord :=
  [record_of_year "2023" 10; record_of_year "2019" 10].

Definition missing_revenue_pair : list FinancialRecord :=
  [with_revenue Undefined (record_of_year "2021" 0); record_of_year "2022" 5].

Definition no_revenue_record : FinancialRecord :=
  with_revenue Undefined (record_of_year "2023" 0).

Definition missing_revenue_four : list FinancialRecord :=
  [record_of_year "2021" 30; record_of_year "2022" 10; no_revenue_record;
   record_of_year "2024" 20].

Definition sample_heap : heap := {[ 1%positive := three_years ]}.

(** ** Vocabulary of the further properties *)

(** The filtered view is the filter of the dataset under the current
    criteria; it is empty while there is no dataset. *)
Definition view_in_sync (st : State) : Prop :=
  match data st with
  | Some d => filteredData st = filterRecords (filters st) d
  | None => filteredData st = []
  end.

(** Every range of [fs] lies within the corresponding range of [fs']. *)
Definition within (fs fs' : Filters) : Prop :=
  num_leq (start (yearRange fs')) (start (yearRange fs))
  /\ num_leq (end_ (yearRange fs)) (end_ (yearRange fs'))
  /\ num_leq (min (revenueRange fs')) (min (revenueRange fs))
  /\ num_leq (max (revenueRange fs)) (max (revenueRange fs'))
  /\ num_leq (min (netIncomeRange fs')) (min (netIncomeRange fs))
  /\ num_leq (max (netIncomeRange fs)) (max (netIncomeRange fs')).

(** Some range of [fs] contains no number: a bound is NaN, or the lower
    bound is above the upper one. *)
Definition some_range_empty (fs : Filters) : Prop :=
  ~ num_leq (start (yearRange fs)) (end_ (yearRange fs))
  \/ ~ num_leq (min (revenueRange fs)) (max (revenueRange fs))
  \/ ~ num_leq (min (netIncomeRange fs)) (max (netIncomeRange fs)).

(** The names of the six filter inputs. *)
Definition inputNames : list string :=
  ["yearRange.start"; "yearRange.end"; "revenueRange.min";
   "revenueRange.max"; "netIncomeRange.min"; "netIncomeRange.max"].

(** The names of the three sortable headers. *)
Definition headerKeys : list string := ["date"; "revenue"; "netIncome"].

(** The digits of a decimal numeral, most significant first. *)
Fixpoint uint_digits (d : Decimal.uint) : list Z :=
  match d with
  | Decimal.Nil => []
  | Decimal.D0 d' => 0 :: uint_digits d'
  | Decimal.D1 d' => 1 :: uint_digits d'
  | Decimal.D2 d' => 2 :: uint_digits d'
  | Decimal.D3 d' => 3 :: uint_digits d'
  | Decimal.D4 d' => 4 :: uint_digits d'
  | Decimal.D5 d' => 5 :: uint_digits d'
  | Decimal.D6 d' => 6 :: uint_digits d'
  | Decimal.D7 d' => 7 :: uint_digits d'
  | Decimal.D8 d' => 8 :: uint_digits d'
  | Decimal.D9 d' => 9 :: uint_digits d'
  end.

(** Text that can follow an integer without changing what [parseInt]
    reads: it is empty, or starts with a character that is neither a
    digit nor the [x] of a hexadecimal prefix. *)
Definition clean_tail (s : string) : bool :=
  match s with
  | EmptyString => true
  | String c _ =>
      negb (is_decimal_digit c) && negb (code c =? 120) && negb (code c =? 88)
  end.

(** No record of the list lacks its sort key: the sort key of each is a
    number other than NaN. *)
Definition keys_present `{Host} (k : string) (records : list FinancialRecord)
  : Prop :=
  Forall (fun r => sortKey k r <> NaN) records.

(** Sample criteria and records of the further properties. *)
Definition narrow_filters : Filters :=
  {| yearRange := {| start := Fin 2021; end_ := Fin 2023 |};
     revenueRange := {| min := Fin 5; max := Fin 100 |};
     netIncomeRange := {| min := Fin 0; max := PosInf |} |}.

Definition loss_record : FinancialRecord :=
  {| date := "2022-09-24"; revenue := Num (Fin 50); netIncome := Num (Fin (-3));
     grossProfit := Null; operatingIncome := Null; eps := Null |}.

Definition bce_record : FinancialRecord :=
  {| date := "-000044-03-15"; revenue := Num (Fin 1); netIncome := Num (Fin 1);
     grossProfit := Null; operatingIncome := Null; eps := Null |}.

(** * Part 3: properties *)

(** ** Reading numbers and strings *)

Example parseInt_year : parseInt "2020" = Fin 2020.
Proof. reflexivity. Qed.

Example parseInt_no_digits : parseInt "abc" = NaN.
Proof. reflexivity. Qed.

Example parseInt_hex : parseInt "0x1F" = Fin 31.
Proof. reflexivity. Qed.

Example parseInt_fraction : parseInt " -12.5" = Fin (-12).
Proof. reflexivity. Qed.

Example parseInt_rounds : parseInt "9007199254740993" = Fin 9007199254740992.
Proof. vm_compute. reflexivity. Qed.

Example split_date : split "-" "2020-09-26" = ["2020"; "09"; "26"].
Proof. reflexivity. Qed.

Example split_name : split "." "revenueRange.max" = ["revenueRange"; "max"].
Proof. reflexivity. Qed.

Lemma js_ge_num_leq x lo : js_ge x lo = true <-> num_leq lo x.
Proof.
  unfold js_ge, IsLessThan, num_leq.
  destruct x, lo; try (split; [discriminate | tauto]);
    try (split; [tauto | reflexivity]).
  destruct (Z.ltb_spec z z0); split; intros; try discriminate; try lia; auto.
Qed.

Lemma js_le_num_leq x hi : js_le x hi = true <-> num_leq x hi.
Proof.
  unfold js_le, IsLessThan, num_leq.
  destruct x, hi; try (split; [discriminate | tauto]);
    try (split; [tauto | reflexivity]).
  destruct (Z.ltb_spec z0 z); split; intros; try discriminate; try lia; auto.
Qed.

Lemma js_ge_NaN y : js_ge NaN y = false.
Proof. reflexivity. Qed.

Lemma js_le_NaN y : js_le NaN y = false.
Proof. unfold js_le, IsLessThan. destruct y; reflexivity. Qed.


Lemma append_assoc_char (cur : string) c (t : string) :
  ((cur ++ String c EmptyString) ++ t = cur ++ String c t)%string.
Proof. induction cur; simpl; congruence. Qed.

Lemma append_empty_r (s : string) : (s ++ EmptyString)%string = s.
Proof. induction s; simpl; congruence. Qed.

Lemma first_piece_split_aux sep s cur :
  first_piece (split_aux sep s cur) = (cur ++ before sep s)%string.
Proof.
  revert cur. induction s as [|c t IH]; intros cur; simpl.
  - now rewrite append_empty_r.
  - destruct (Ascii.eqb c sep); simpl.
    + now rewrite append_empty_r.
    + rewrite IH. apply append_assoc_char.
Qed.

Lemma first_piece_split sep s : first_piece (split sep s) = before sep s.
Proof. unfold split. now rewrite first_piece_split_aux. Qed.


Lemma digit_value_decimal c :
  is_decimal_digit c = true -> digit_value c = Some (code c - 48).
Proof. unfold is_decimal_digit, digit_value. intros ->. reflexivity. Qed.

Lemma digit_value_not_decimal c :
  is_decimal_digit c = false ->
  match digit_value c with
  | Some d => 10 <= d
  | None => True
  end.
Proof.
  unfold is_decimal_digit, digit_value. intros ->.
  destruct ((97 <=? code c) && (code c <=? 122)) eqn:E1; [lia|].
  destruct ((65 <=? code c) && (code c <=? 90)) eqn:E2; [lia|exact I].
Qed.




Lemma digits_value_10 ds :
  digits_value 10 ds = fold_left (fun a x => 10 * a + x) ds 0.
Proof.
  unfold digits_value. generalize 0.
  induction ds as [|x l IH]; intros a; simpl; [reflexivity|].
  rewrite IH. f_equal. lia.
Qed.

Lemma number_of_Z_small v : 0 <= v < 2 ^ 53 -> number_of_Z v = Fin v.
Proof.
  intros Hv. unfold number_of_Z, round_nearest_even_53.
  rewrite Z.abs_eq by lia.
  replace (v <? 2 ^ 53) with true by lia.
  assert (2 ^ 53 < 2 ^ 1024) by (apply Z.pow_lt_mono_r; lia).
  replace (2 ^ 1024 <=? v) with false by lia.
  f_equal. destruct (Z.eq_dec v 0) as [->|]; [reflexivity|].
  rewrite Z.sgn_pos by lia. lia.
Qed.



Lemma strip_hex_prefix_none s :
  has_hex_prefix s = false -> strip_hex_prefix s = (10, s).
Proof.
  destruct s as [|c0 [|c1 t]]; simpl; auto. intros ->. reflexivity.
Qed.

Lemma parseInt_digit_led c t :
  is_decimal_digit c = true ->
  has_hex_prefix (String c t) = false ->
  parseInt (String c t)
  = match radix_digits 10 (String c t) with
    | [] => NaN
    | ds => number_of_Z (digits_value 10 ds)
    end.
Proof.
  intros Hd Hhex. unfold parseInt.
  assert (Hws : is_white_space c = false).
  { unfold is_decimal_digit in Hd. unfold is_white_space. lia. }
  cbn [trim_start]. rewrite Hws.
  unfold sign_of, strip_sign.
  unfold is_decimal_digit in Hd.
  replace (code c =? 45) with false by lia.
  replace (code c =? 43) with false by lia.
  cbn [orb]. rewrite (strip_hex_prefix_none _ Hhex).
  destruct (radix_digits 10 (String c t)); [reflexivity|].
  now rewrite Z.mul_1_l.
Qed.


(** Every date of the data model is plain. *)
Lemma iso_date_plain d : iso_date d = true -> plain_year d = true.
Proof.
  unfold iso_date. intros H.
  rewrite <- (string_of_list_ascii_of_string d).
  destruct (list_ascii_of_string d) as [|y1 [|y2 [|y3 [|y4 [|s1 [|m1 [|m2 [|s2
    [|d1 [|d2 [|]]]]]]]]]]]; try discriminate.
  cbn [forallb] in H. rewrite !andb_true_iff in H.
  destruct H as [[(Hy1 & Hy2 & Hy3 & Hy4 & _) Hs1] _].
  unfold plain_year. cbn [string_of_list_ascii leading_digits has_hex_prefix].
  rewrite Hy1, Hy2, Hy3, Hy4.
  assert (is_decimal_digit s1 = false) as -> by (unfold is_decimal_digit; lia).
  unfold is_decimal_digit in Hy2.
  replace (code y2 =? 120) with false by lia.
  replace (code y2 =? 88) with false by lia.
  rewrite andb_false_r. reflexivity.
Qed.

(** ** The filter stage *)



Lemma applyFilters_filteredData st d :
  data st = Some d ->
  filteredData (applyFilters st) = filterRecords (filters st) d.
Proof. intros Hd. unfold applyFilters. now rewrite Hd. Qed.



(** *** Absent amounts *)

(** C2, as stated, fails: a record whose revenue is [null] passes both
    revenue comparisons of the default criteria and is kept. *)
Lemma null_revenue_is_kept :
  revenue null_revenue_record = Null
  /\ js_ge (ToNumber (revenue null_revenue_record))
           (min (revenueRange initialFilters)) = true
  /\ js_le (ToNumber (revenue null_revenue_record))
           (max (revenueRange initialFilters)) = true
  /\ filterRecords initialFilters [null_revenue_record] = [null_revenue_record].
Proof. repeat split. Qed.

(** C2, amended.  A record whose revenue or net income is [undefined]
    fails both comparisons on that field under every criteria and is
    excluded.  A [null] amount is compared as the number 0: the record is
    filtered exactly as if the field held 0, so it is excluded only when 0
    is outside the range of that field (or another condition fails). *)
Theorem absent_amounts_in_filter :
  (forall lo hi, js_ge (ToNumber Undefined) lo = false
                 /\ js_le (ToNumber Undefined) hi = false)
  /\ (forall fs r,
         revenue r = Undefined \/ netIncome r = Undefined ->
         filterCallback fs r = false
         /\ forall records, ~ In r (filterRecords fs records))
  /\ (forall lo hi, js_ge (ToNumber Null) lo = js_ge (Fin 0) lo
                    /\ js_le (ToNumber Null) hi = js_le (Fin 0) hi)
  /\ (forall fs r,
         revenue r = Null ->
         filterCallback fs r = filterCallback fs (with_revenue (Num (Fin 0)) r))
  /\ (forall fs r,
         netIncome r = Null ->
         filterCallback fs r
         = filterCallback fs (with_netIncome (Num (Fin 0)) r)).
Proof.
  split; [|split; [|split; [|split]]].
  - intros lo hi. split; [apply js_ge_NaN | apply js_le_NaN].
  - intros fs r H.
    assert (Hf : filterCallback fs r = false).
    { unfold filterCallback. destruct H as [-> | ->]; cbn [ToNumber];
        rewrite js_ge_NaN; rewrite ?andb_false_r; reflexivity. }
    split; [exact Hf|]. intros records Hin.
    apply filter_In in Hin as [_ Hin]. congruence.
  - intros lo hi. split; reflexivity.
  - intros fs r H. unfold filterCallback.
    cbn [with_revenue date revenue netIncome]. now rewrite H.
  - intros fs r H. unfold filterCallback.
    cbn [with_netIncome date revenue netIncome]. now rewrite H.
Qed.

Lemma absent_amounts_in_filter_witness :
  (revenue undefined_revenue_record = Undefined
   \/ netIncome undefined_revenue_record = Undefined)
  /\ filterCallback initialFilters undefined_revenue_record = false
  /\ revenue null_revenue_record = Null
  /\ filterCallback initialFilters null_revenue_record
     = filterCallback initialFilters
         (with_revenue (Num (Fin 0)) null_revenue_record).
Proof.
  split; [left; reflexivity|].
  split.
  - exact (proj1 (proj1 (proj2 absent_amounts_in_filter) initialFilters
                    undefined_revenue_record (or_introl eq_refl))).
  - split; [reflexivity|].
    exact (proj1 (proj2 (proj2 (proj2 absent_amounts_in_filter)))
             initialFilters null_revenue_record eq_refl).
Defined.

(** *** Idempotence and order *)

Lemma filter_idempotent {A} (p : A -> bool) (l : list A) :
  List.filter p (List.filter p l) = List.filter p l.
Proof.
  induction l as [|x l IH]; [reflexivity|]. simpl.
  destruct (p x) eqn:Hp; [|exact IH]. simpl. now rewrite Hp, IH.
Qed.

(** C6.  Filtering an already filtered list with the same criteria
    changes nothing, because every record of a filtered list passes the
    criteria; and running [applyFilters] twice is running it once. *)
Theorem filter_is_idempotent :
  (forall fs records,
      filterRecords fs (filterRecords fs records) = filterRecords fs records)
  /\ (forall fs records, Forall (fun r => filterCallback fs r = true)
                                (filterRecords fs records))
  /\ (forall st, applyFilters (applyFilters st) = applyFilters st).
Proof.
  split; [|split].
  - intros fs records. apply filter_idempotent.
  - intros fs records. apply Forall_forall. intros r Hin.
    now apply filter_In in Hin.
  - intros st. unfold applyFilters.
    destruct (data st) as [d|] eqn:Hd; cbn [data setFilteredData filters];
      rewrite Hd; reflexivity.
Qed.

Lemma filter_sublist {A} (p : A -> bool) (l : list A) :
  sublist (List.filter p l) l.
Proof.
  induction l as [|x l IH]; simpl; [constructor|].
  destruct (p x); now constructor.
Qed.

(** C7.  The filter output is a subsequence of its input: it is obtained
    by deleting records, never by moving them.  So two records that occur
    in the output, one before the other, occur in the input in the same
    order. *)
Theorem filter_preserves_order (fs : Filters) (records : list FinancialRecord) :
  sublist (filterRecords fs records) records
  /\ forall a b l1 l2 l3,
       filterRecords fs records = l1 ++ a :: l2 ++ b :: l3 ->
       exists m1 m2 m3, records = m1 ++ a :: m2 ++ b :: m3.
Proof.
  pose proof (filter_sublist (filterCallback fs) records) as Hsub.
  split; [exact Hsub|].
  intros a b l1 l2 l3 Heq. unfold filterRecords in Heq. rewrite Heq in Hsub.
  apply sublist_app_l in Hsub as (k1 & k2 & -> & _ & Hsub).
  apply sublist_cons_l in Hsub as (k3 & k4 & -> & Hsub).
  apply sublist_app_l in Hsub as (k5 & k6 & -> & _ & Hsub).
  apply sublist_cons_l in Hsub as (k7 & k8 & -> & _).
  exists (k1 ++ k3), (k5 ++ k7), k8.
  now rewrite <- !app_assoc.
Qed.

Lemma filter_preserves_order_witness :
  filterRecords initialFilters three_years
  = [] ++ record_of_year "2023" 30 :: [] ++ record_of_year "2021" 20 :: []
  /\ exists m1 m2 m3,
       three_years
       = m1 ++ record_of_year "2023" 30 :: m2 ++ record_of_year "2021" 20 :: m3.
Proof.
  assert (H : filterRecords initialFilters three_years
              = [] ++ record_of_year "2023" 30
                   :: [] ++ record_of_year "2021" 20 :: []) by reflexivity.
  split; [exact H|].
  exact (proj2 (filter_preserves_order initialFilters three_years) _ _ _ _ _ H).
Defined.

(** ** Editing the criteria *)

(** C3, as stated, fails for the end of the year range: an empty value
    stores 0 there, not +infinity. *)
Lemma empty_year_end_becomes_zero :
  end_ (yearRange (filters
         (handleFilterChange "yearRange.end" EmptyString initialState)))
  = Fin 0
  /\ end_ (yearRange (filters
            (handleFilterChange "yearRange.end" EmptyString initialState)))
     <> PosInf.
Proof. split; [reflexivity | discriminate]. Qed.

Lemma handleFilterChange_filters name v st :
  filters (handleFilterChange name v st) = newFilters name v (filters st).
Proof.
  unfold handleFilterChange, applyFilters. destruct (data st); reflexivity.
Qed.

(** C3, amended.  A change event on one of the six filter inputs replaces
    that one bound and leaves the other five.  An empty value is stored as
    +infinity when the field key is [max] and as 0 for every other key
    ([min], [start] and also [end]); a value that is not empty is stored
    as [parseInt] reads it.  The stored bound is always a number, never
    [undefined]; it is NaN when the text does not begin with an integer. *)
Theorem filter_bound_normalization :
  (forall k, boundValue k EmptyString
             = if match k with
                  | Some s => String.eqb s "max"
                  | None => false
                  end
               then PosInf else Fin 0)
  /\ boundValue (Some "start") EmptyString = Fin 0
  /\ boundValue (Some "min") EmptyString = Fin 0
  /\ boundValue (Some "end") EmptyString = Fin 0
  /\ boundValue (Some "max") EmptyString = PosInf
  /\ (forall k v, v <> EmptyString -> boundValue k v = parseInt v)
  /\ boundValue (Some "min") "abc" = NaN
  /\ (forall v st,
        let fs := filters st in
        filters (handleFilterChange "yearRange.start" v st)
        = {| yearRange := {| start := boundValue (Some "start") v;
                             end_ := end_ (yearRange fs) |};
             revenueRange := revenueRange fs;
             netIncomeRange := netIncomeRange fs |}
        /\ filters (handleFilterChange "yearRange.end" v st)
           = {| yearRange := {| start := start (yearRange fs);
                                end_ := boundValue (Some "end") v |};
                revenueRange := revenueRange fs;
                netIncomeRange := netIncomeRange fs |}
        /\ filters (handleFilterChange "revenueRange.min" v st)
           = {| yearRange := yearRange fs;
                revenueRange := {| min := boundValue (Some "min") v;
                                   max := max (revenueRange fs) |};
                netIncomeRange := netIncomeRange fs |}
        /\ filters (handleFilterChange "revenueRange.max" v st)
           = {| yearRange := yearRange fs;
                revenueRange := {| min := min (revenueRange fs);
                                   max := boundValue (Some "max") v |};
                netIncomeRange := netIncomeRange fs |}
        /\ filters (handleFilterChange "netIncomeRange.min" v st)
           = {| yearRange := yearRange fs;
                revenueRange := revenueRange fs;
                netIncomeRange := {| min := boundValue (Some "min") v;
                                     max := max (netIncomeRange fs) |} |}
        /\ filters (handleFilterChange "netIncomeRange.max" v st)
           = {| yearRange := yearRange fs;
                revenueRange := revenueRange fs;
                netIncomeRange := {| min := min (netIncomeRange fs);
                                     max := boundValue (Some "max") v |} |}).
Proof.
  split; [intros k; reflexivity|].
  do 4 (split; [reflexivity|]).
  split; [|split; [reflexivity|]].
  - intros k v Hv. unfold boundValue.
    destruct (String.eqb_spec v EmptyString); [contradiction|reflexivity].
  - intros v st fs. rewrite !handleFilterChange_filters. repeat split.
Qed.

Lemma filter_bound_normalization_witness :
  "2021" <> EmptyString /\ boundValue (Some "start") "2021" = parseInt "2021".
Proof.
  assert (H : "2021" <> EmptyString) by discriminate.
  split; [exact H|].
  exact (proj1 (proj2 (proj2 (proj2 (proj2 (proj2 filter_bound_normalization)))))
           (Some "start") "2021" H).
Defined.

(** ** Choosing the sort column *)

(** C10, as stated, fails in its last sentence: from the initial
    configuration (date, ascending), the third click on the date header
    leaves the column descending. *)
Lemma third_click_on_date_is_descending :
  sortConfig initialState = {| key := "date"; direction := "asc" |}
  /\ sortConfig (clicks3 "date" initialState)
     = {| key := "date"; direction := "desc" |}
  /\ direction (sortConfig (clicks3 "date" initialState)) <> "asc".
Proof. repeat split. discriminate. Qed.

Lemma handleSort_config k st :
  sortConfig (handleSort k st)
  = if String.eqb (key (sortConfig st)) k
       && String.eqb (direction (sortConfig st)) "asc"
    then {| key := k; direction := "desc" |}
    else {| key := k; direction := "asc" |}.
Proof.
  unfold handleSort. cbn [sortConfig setSortConfig].
  destruct (_ && _); reflexivity.
Qed.

Lemma handleSort_from_ascending st k :
  key (sortConfig st) = k -> direction (sortConfig st) = "asc" ->
  sortConfig (handleSort k st) = {| key := k; direction := "desc" |}.
Proof.
  intros Hk Hd. rewrite handleSort_config, Hk, Hd.
  now rewrite String.eqb_refl.
Qed.

Lemma handleSort_otherwise st k :
  key (sortConfig st) <> k \/ direction (sortConfig st) <> "asc" ->
  sortConfig (handleSort k st) = {| key := k; direction := "asc" |}.
Proof.
  intros H. rewrite handleSort_config.
  destruct (String.eqb_spec (key (sortConfig st)) k);
    destruct (String.eqb_spec (direction (sortConfig st)) "asc");
    try reflexivity. destruct H; contradiction.
Qed.

Lemma clicks3_one_click st k : clicks3 k st = handleSort k st.
Proof.
  destruct st as [d fd lo er vis fs [ke di]]. unfold clicks3, handleSort.
  cbn [setSortConfig sortConfig key direction data filteredData loading
       error isFilterVisible filters].
  rewrite !String.eqb_refl.
  destruct (String.eqb ke k && String.eqb di "asc"); reflexivity.
Qed.

(** C10, amended.  A click on header [k] sets (k, descending) when the
    configuration is (k, ascending), and (k, ascending) in every other
    case: another key, or the same key not ascending.  Consequently the
    direction alternates: three clicks on a column leave it as one click
    does, which is ascending unless the column was the ascending sort
    column before the first of them (then it is descending). *)
Theorem header_click_toggles_direction :
  (forall st k,
      key (sortConfig st) = k -> direction (sortConfig st) = "asc" ->
      sortConfig (handleSort k st) = {| key := k; direction := "desc" |})
  /\ (forall st k,
        key (sortConfig st) <> k \/ direction (sortConfig st) <> "asc" ->
        sortConfig (handleSort k st) = {| key := k; direction := "asc" |})
  /\ (forall st k, clicks3 k st = handleSort k st)
  /\ (forall st k,
        key (sortConfig st) <> k \/ direction (sortConfig st) <> "asc" ->
        direction (sortConfig (clicks3 k st)) = "asc")
  /\ (forall st k,
        key (sortConfig st) = k -> direction (sortConfig st) = "asc" ->
        direction (sortConfig (clicks3 k st)) = "desc").
Proof.
  split; [exact handleSort_from_ascending|].
  split; [exact handleSort_otherwise|].
  split; [exact clicks3_one_click|].
  split.
  - intros st k H. now rewrite clicks3_one_click, handleSort_otherwise.
  - intros st k Hk Hd.
    now rewrite clicks3_one_click, (handleSort_from_ascending st k Hk Hd).
Qed.

Lemma header_click_toggles_direction_witness :
  key (sortConfig initialState) = "date"
  /\ direction (sortConfig initialState) = "asc"
  /\ sortConfig (handleSort "date" initialState)
     = {| key := "date"; direction := "desc" |}.
Proof.
  split; [reflexivity|]. split; [reflexivity|].
  exact (proj1 header_click_toggles_direction initialState "date"
           eq_refl eq_refl).
Defined.

(** ** [Array.prototype.sort] *)

Section ArraySortFacts.
Context {A : Type}.
Variable comparefn : A -> A -> number.

Lemma insert_sorted_perm x l :
  Permutation (x :: l) (insert_sorted comparefn x l).
Proof.
  induction l as [|y t IH]; simpl; [reflexivity|].
  fold (after comparefn x y). destruct (after comparefn x y); [|reflexivity].
  rewrite perm_swap. now constructor.
Qed.

Lemma Array_sort_perm l : Permutation l (Array_sort comparefn l).
Proof.
  induction l as [|x t IH]; simpl; [constructor|].
  rewrite <- insert_sorted_perm. now constructor.
Qed.

Lemma Array_sort_In l x : In x (Array_sort comparefn l) <-> In x l.
Proof.
  split; apply Permutation_in; [symmetry|]; apply Array_sort_perm.
Qed.

Lemma Array_sort_In_inv l x : In x (Array_sort comparefn l) -> In x l.
Proof. apply Array_sort_In. Qed.

Lemma Array_sort_length l :
  List.length (Array_sort comparefn l) = List.length l.
Proof. symmetry. apply Permutation_length, Array_sort_perm. Qed.

Lemma insert_sorted_In x l y :
  In y (insert_sorted comparefn x l) <-> y = x \/ In y l.
Proof.
  pose proof (insert_sorted_perm x l) as Hp. split; intros H.
  - apply (Permutation_in _ (Permutation_sym Hp)) in H.
    destruct H; auto.
  - apply (Permutation_in _ Hp). destruct H; simpl; auto.
Qed.

(** *** Stability *)

Lemma filter_insert_sorted (P : A -> bool) x s :
  (forall y, In y s -> P x = true -> P y = true ->
             after comparefn x y = false) ->
  List.filter P (insert_sorted comparefn x s) = List.filter P (x :: s).
Proof.
  induction s as [|y t IH]; intros Hties; [reflexivity|].
  cbn [insert_sorted]. fold (after comparefn x y).
  destruct (after comparefn x y) eqn:Hxy; [|reflexivity].
  cbn [List.filter]. rewrite IH by (intros; apply Hties; simpl; auto).
  cbn [List.filter].
  destruct (P x) eqn:Px, (P y) eqn:Py; try reflexivity.
  rewrite Hties in Hxy by (simpl; auto). discriminate.
Qed.

(** A set of elements that compare as equal with one another keeps its
    order of appearance. *)
Lemma Array_sort_stable (P : A -> bool) l :
  (forall x y, In x l -> In y l -> P x = true -> P y = true ->
               after comparefn x y = false) ->
  List.filter P (Array_sort comparefn l) = List.filter P l.
Proof.
  induction l as [|x t IH]; intros Hties; [reflexivity|].
  cbn [Array_sort fold_right]. fold (Array_sort comparefn t).
  rewrite filter_insert_sorted.
  - cbn [List.filter]. rewrite IH; [reflexivity|].
    intros; apply Hties; simpl; auto.
  - intros y Hy. apply Array_sort_In_inv in Hy. apply Hties; simpl; auto.
Qed.

(** *** Order, for a comparator that is consistent on the elements *)

Lemma consistent_on_incl l l' :
  incl l' l -> consistent_on comparefn l -> consistent_on comparefn l'.
Proof.
  intros Hi [Ht Htr]. split.
  - intros a b Ha Hb. apply Ht; auto.
  - intros a b c Ha Hb Hc. apply Htr; auto.
Qed.

Lemma insert_sorted_ordered x s :
  consistent_on comparefn (x :: s) ->
  StronglySorted (not_after comparefn) s ->
  StronglySorted (not_after comparefn) (insert_sorted comparefn x s).
Proof.
  intros Hc Hs. induction Hs as [|y t Ht IH Hy].
  - simpl. constructor; constructor.
  - cbn [insert_sorted]. fold (after comparefn x y).
    destruct Hc as [Htot Htr].
    destruct (after comparefn x y) eqn:Hxy.
    + constructor.
      * apply IH. apply (consistent_on_incl (x :: y :: t)).
        -- intros z [->|Hz]; simpl; auto.
        -- split; assumption.
      * apply Forall_forall. intros z Hz.
        apply insert_sorted_In in Hz. destruct Hz as [->|Hz].
        -- destruct (Htot x y) as [H|H]; simpl; auto.
           unfold not_after in H. congruence.
        -- rewrite Forall_forall in Hy. auto.
    + constructor; [constructor; assumption|].
      constructor; [exact Hxy|].
      apply Forall_forall. intros z Hz.
      rewrite Forall_forall in Hy.
      apply (Htr x y z); simpl; auto.
Qed.

Lemma Array_sort_ordered l :
  consistent_on comparefn l ->
  StronglySorted (not_after comparefn) (Array_sort comparefn l).
Proof.
  induction l as [|x t IH]; intros Hc; [constructor|].
  cbn [Array_sort fold_right]. fold (Array_sort comparefn t).
  apply insert_sorted_ordered.
  - apply (consistent_on_incl (x :: t)); [|exact Hc].
    intros z [->|Hz]; simpl; auto. right. now apply Array_sort_In_inv in Hz.
  - apply IH. apply (consistent_on_incl (x :: t)); [|exact Hc].
    intros z Hz; simpl; auto.
Qed.

(** *** The result is determined *)

(** Two ordered lists in which every class of tied elements appears in
    the same order are equal. *)
Lemma ordered_stable_unique (l1 l2 : list A) :
  (forall x, In x l1 \/ In x l2 -> after comparefn x x = false) ->
  StronglySorted (not_after comparefn) l1 ->
  StronglySorted (not_after comparefn) l2 ->
  (forall x, In x l1 \/ In x l2 ->
             List.filter (tied comparefn x) l1
             = List.filter (tied comparefn x) l2) ->
  l1 = l2.
Proof.
  revert l2. induction l1 as [|x t1 IH]; intros l2 Hrefl H1 H2 Hcls.
  - destruct l2 as [|y t2]; [reflexivity|].
    specialize (Hcls y (or_intror (or_introl eq_refl))).
    cbn [List.filter] in Hcls. unfold tied at 1 in Hcls.
    rewrite (Hrefl y) in Hcls by (simpl; auto). discriminate.
  - destruct l2 as [|y t2].
    + specialize (Hcls x (or_introl (or_introl eq_refl))).
      cbn [List.filter] in Hcls. unfold tied at 1 in Hcls.
      rewrite (Hrefl x) in Hcls by (simpl; auto). discriminate.
    + apply StronglySorted_inv in H1 as [H1 Hx].
      apply StronglySorted_inv in H2 as [H2 Hy].
      rewrite Forall_forall in Hx, Hy.
      assert (Hxx : tied comparefn x x = true).
      { unfold tied. rewrite (Hrefl x) by (simpl; auto). reflexivity. }
      assert (Hyy : tied comparefn y y = true).
      { unfold tied. rewrite (Hrefl y) by (simpl; auto). reflexivity. }
      assert (Hsym : tied comparefn y x = tied comparefn x y)
        by (unfold tied; apply andb_comm).
      pose proof (Hcls x (or_introl (or_introl eq_refl))) as Hcx.
      pose proof (Hcls y (or_intror (or_introl eq_refl))) as Hcy.
      cbn [List.filter] in Hcx, Hcy. rewrite Hxx in Hcx. rewrite Hyy in Hcy.
      rewrite Hsym in Hcy.
      destruct (tied comparefn x y) eqn:Hxy.
      2:{ exfalso.
          assert (Hin2 : In x t2).
          { assert (Hin : In x (List.filter (tied comparefn x) t2))
              by (rewrite <- Hcx; simpl; auto).
            now apply filter_In in Hin. }
          assert (Hin1 : In y t1).
          { assert (Hin : In y (List.filter (tied comparefn y) t1))
              by (rewrite Hcy; simpl; auto).
            now apply filter_In in Hin. }
          apply Hx in Hin1. apply Hy in Hin2.
          unfold tied, not_after in *. rewrite Hin1, Hin2 in Hxy.
          discriminate. }
      injection Hcx as -> Hcx.
      f_equal. apply IH; auto.
      * intros z Hz. apply Hrefl. destruct Hz; simpl; auto.
      * intros z Hz.
        assert (Hz' : In z (y :: t1) \/ In z (y :: t2))
          by (destruct Hz; simpl; auto).
        specialize (Hcls z Hz'). cbn [List.filter] in Hcls.
        destruct (tied comparefn z y); [now injection Hcls|exact Hcls].
Qed.

(** With a comparator that is consistent on the elements, every list
    that is ordered and stable with respect to [l] is the one
    [Array_sort] computes: the result does not depend on the sorting
    algorithm. *)
Lemma Array_sort_determined (l l' : list A) :
  consistent_on comparefn l ->
  (forall a b c, In a l -> In b l -> In c l ->
                 tied comparefn a b = true -> tied comparefn b c = true ->
                 tied comparefn a c = true) ->
  Permutation l l' ->
  StronglySorted (not_after comparefn) l' ->
  (forall x, In x l ->
             List.filter (tied comparefn x) l'
             = List.filter (tied comparefn x) l) ->
  l' = Array_sort comparefn l.
Proof.
  intros Hc Heq Hp Hs Hst.
  assert (Hrefl : forall x, In x l -> after comparefn x x = false).
  { intros x Hx. destruct Hc as [Htot _].
    destruct (Htot x x Hx Hx); assumption. }
  apply ordered_stable_unique; auto.
  - intros x [Hx|Hx]; apply Hrefl.
    + now apply (Permutation_in _ (Permutation_sym Hp)).
    + now apply Array_sort_In_inv in Hx.
  - now apply Array_sort_ordered.
  - intros x Hx.
    assert (Hin : In x l).
    { destruct Hx as [Hx|Hx].
      - now apply (Permutation_in _ (Permutation_sym Hp)).
      - now apply Array_sort_In_inv in Hx. }
    rewrite (Hst x Hin). symmetry. apply Array_sort_stable.
    intros a b Ha Hb Pa Pb.
    assert (Hab : tied comparefn a b = true).
    { apply (Heq a x b); auto.
      unfold tied in *. now rewrite andb_comm. }
    unfold tied in Hab. apply andb_true_iff in Hab as [Hab _].
    now apply negb_true_iff in Hab.
Qed.

Lemma Array_sort_constant l :
  (forall a b, comparefn a b = Fin 0) -> Array_sort comparefn l = l.
Proof.
  intros Hc. induction l as [|x t IH]; [reflexivity|].
  cbn [Array_sort fold_right]. fold (Array_sort comparefn t). rewrite IH.
  destruct t as [|y t']; [reflexivity|].
  cbn [insert_sorted]. unfold SortCompare. now rewrite Hc.
Qed.
End ArraySortFacts.

(** *** Lists in order *)

Lemma StronglySorted_snoc {A} (R : A -> A -> Prop) l x :
  StronglySorted R l -> Forall (fun y => R y x) l -> StronglySorted R (l ++ [x]).
Proof.
  induction 1 as [|y t Ht IH Hy]; intros Hx; simpl.
  - constructor; constructor.
  - apply Forall_cons_iff in Hx as [Hyx Hx].
    constructor; [auto|].
    apply Forall_app. split; [exact Hy|]. constructor; [exact Hyx|constructor].
Qed.

Lemma StronglySorted_rev {A} (R : A -> A -> Prop) l :
  StronglySorted R l -> StronglySorted (fun x y => R y x) (rev l).
Proof.
  induction 1 as [|y t Ht IH Hy]; simpl; [constructor|].
  apply StronglySorted_snoc; [exact IH|].
  apply Forall_forall. intros z Hz. apply in_rev in Hz.
  rewrite Forall_forall in Hy. auto.
Qed.

Lemma StronglySorted_impl {A} (R R' : A -> A -> Prop) l :
  (forall x y, R x y -> R' x y) -> StronglySorted R l -> StronglySorted R' l.
Proof.
  intros Hi. induction 1 as [|y t Ht IH Hy]; constructor; [exact IH|].
  eapply Forall_impl; [|exact Hy]. auto.
Qed.

Lemma filter_none {A} (P : A -> bool) l :
  (forall y, In y l -> P y = false) -> List.filter P l = [].
Proof.
  induction l as [|y t IH]; intros Hn; [reflexivity|].
  cbn [List.filter]. rewrite (Hn y) by (simpl; auto).
  apply IH. intros; apply Hn; simpl; auto.
Qed.

Lemma StronglySorted_impl_In {A} (R R' : A -> A -> Prop) l :
  (forall x y, In x l -> In y l -> R x y -> R' x y) ->
  StronglySorted R l -> StronglySorted R' l.
Proof.
  intros Hi Hs. induction Hs as [|y t Ht IH Hy]; constructor.
  - apply IH. intros; apply Hi; simpl; auto.
  - rewrite Forall_forall in *. intros z Hz. apply Hi; simpl; auto.
Qed.

(** *** The sort of the engine *)

Section V8SortFacts.
Context {A : Type}.
Variable comparefn : A -> A -> number.

(** A negative answer one way is a positive answer the other way. *)
Hypothesis precedes_after :
  forall x y, precedes comparefn x y = after comparefn y x.

Variable l : list A.
Hypothesis Hcons : consistent_on comparefn l.

Lemma consistent_total a b :
  In a l -> In b l -> after comparefn a b = true -> not_after comparefn b a.
Proof.
  intros Ha Hb Hab. destruct Hcons as [Htot _].
  destruct (Htot a b Ha Hb) as [H|H]; [|exact H].
  unfold not_after in H. congruence.
Qed.

Lemma consistent_after_left a b c :
  In a l -> In b l -> In c l ->
  after comparefn a b = true -> not_after comparefn a c ->
  after comparefn c b = true.
Proof.
  intros Ha Hb Hc Hab Hac. destruct Hcons as [_ Htr].
  destruct (after comparefn c b) eqn:E; [reflexivity|].
  pose proof (Htr a c b Ha Hc Hb Hac E) as H. unfold not_after in H.
  congruence.
Qed.

Lemma consistent_after_trans a b c :
  In a l -> In b l -> In c l ->
  after comparefn a b = true -> after comparefn b c = true ->
  after comparefn a c = true.
Proof.
  intros Ha Hb Hc Hab Hbc. destruct Hcons as [_ Htr].
  destruct (after comparefn a c) eqn:E; [reflexivity|].
  pose proof (consistent_total _ _ Ha Hb Hab) as Hba.
  pose proof (Htr b a c Hb Ha Hc Hba E) as H. unfold not_after in H.
  congruence.
Qed.

Lemma consistent_tied_trans a b c :
  In a l -> In b l -> In c l ->
  tied comparefn a b = true -> tied comparefn b c = true ->
  tied comparefn a c = true.
Proof.
  intros Ha Hb Hc. unfold tied. rewrite !andb_true_iff, !negb_true_iff.
  intros [H1 H2] [H3 H4]. destruct Hcons as [_ Htr]. split.
  - exact (Htr a b c Ha Hb Hc H1 H3).
  - exact (Htr c b a Hc Hb Ha H4 H2).
Qed.

Lemma tied_sym a b : tied comparefn a b = tied comparefn b a.
Proof. unfold tied. apply andb_comm. Qed.

(** **** The insertion point *)

Lemma StronglySorted_nth_error (R : A -> A -> Prop) s i j x y :
  StronglySorted R s -> (i < j)%nat ->
  nth_error s i = Some x -> nth_error s j = Some y -> R x y.
Proof.
  intros Hs. revert i j. induction Hs as [|z t Ht IH Hz]; intros i j Hij Hi Hj.
  - destruct i; discriminate.
  - destruct j as [|j]; [lia|]. cbn in Hj.
    destruct i as [|i]; cbn in Hi.
    + injection Hi as ->. rewrite Forall_forall in Hz. apply Hz.
      eapply nth_error_In; eauto.
    + apply (IH i j); auto. lia.
Qed.

Lemma insertion_point_spec fuel s pivot left right :
  In pivot l -> incl s l ->
  StronglySorted (not_after comparefn) s ->
  (left <= right)%nat -> (right <= List.length s)%nat ->
  (right - left <= fuel)%nat ->
  (forall i y, (i < left)%nat -> nth_error s i = Some y ->
               precedes comparefn pivot y = false) ->
  (forall i y, (right <= i)%nat -> nth_error s i = Some y ->
               precedes comparefn pivot y = true) ->
  let p := insertion_point comparefn fuel s pivot left right in
  (p <= List.length s)%nat
  /\ (forall i y, (i < p)%nat -> nth_error s i = Some y ->
                  precedes comparefn pivot y = false)
  /\ (forall i y, (p <= i)%nat -> nth_error s i = Some y ->
                  precedes comparefn pivot y = true).
Proof.
  intros Hp Hs Hsorted. revert left right.
  induction fuel as [|fuel IH]; intros left right Hlr Hr Hfuel Hleft Hright;
    cbn [insertion_point].
  - assert (left = right) by lia. subst. cbn zeta.
    repeat split; auto; lia.
  - destruct (Nat.ltb_spec left right) as [Hlt|Hge].
    2:{ assert (left = right) by lia. subst. cbn zeta.
        repeat split; auto; lia. }
    set (mid := (left + Nat.div2 (right - left))%nat).
    assert (Hmid : (left <= mid < right)%nat).
    { unfold mid. pose proof (Nat.lt_div2 (right - left) ltac:(lia)) as Hd.
      clearbody mid. revert Hd. generalize (Nat.div2 (right - left)).
      intros d Hd. lia. }
    destruct (nth_error s mid) as [y|] eqn:Hy.
    2:{ apply nth_error_None in Hy. lia. }
    assert (Hyl : In y l) by (apply Hs; eapply nth_error_In; eauto).
    destruct (precedes comparefn pivot y) eqn:Hpy.
    + apply IH; auto; try lia.
      intros i z Hi Hz.
      destruct (Nat.eq_dec i mid) as [->|Hne]; [congruence|].
      destruct (Nat.le_gt_cases right i) as [Hri|Hri]; [eauto|].
      assert (Hzl : In z l) by (apply Hs; eapply nth_error_In; eauto).
      rewrite precedes_after in *.
      apply (consistent_after_left y pivot z); auto.
      apply (StronglySorted_nth_error _ s mid i); auto. lia.
    + apply IH; auto; try lia.
      intros i z Hi Hz.
      destruct (Nat.eq_dec i mid) as [->|Hne]; [congruence|].
      destruct (Nat.le_gt_cases left i) as [Hli|Hli]; [|eauto].
      assert (Hzl : In z l) by (apply Hs; eapply nth_error_In; eauto).
      rewrite precedes_after in *.
      destruct Hcons as [_ Htr].
      apply (Htr z y pivot); auto.
      apply (StronglySorted_nth_error _ s i mid); auto. lia.
Qed.


Lemma In_firstn x n (s : list A) : In x (firstn n s) -> In x s.
Proof.
  intros H. rewrite <- (firstn_skipn n s). apply in_or_app. now left.
Qed.

Lemma In_skipn x n (s : list A) : In x (skipn n s) -> In x s.
Proof.
  intros H. rewrite <- (firstn_skipn n s). apply in_or_app. now right.
Qed.

Lemma Forall_nth_error (P : A -> Prop) s :
  (forall i y, nth_error s i = Some y -> P y) -> Forall P s.
Proof.
  intros H. apply Forall_forall. intros y Hy.
  apply In_nth_error in Hy as [i Hi]. eauto.
Qed.

(** The elements before the insertion point do not come after [pivot];
    those from the insertion point on do. *)
Lemma insertion_point_splits s pivot :
  In pivot l -> incl s l -> StronglySorted (not_after comparefn) s ->
  let p := insertion_point comparefn (List.length s) s pivot 0
             (List.length s) in
  Forall (fun y => not_after comparefn y pivot) (firstn p s)
  /\ Forall (fun y => after comparefn y pivot = true) (skipn p s).
Proof.
  intros Hp Hs Hsorted p.
  destruct (insertion_point_spec (List.length s) s pivot 0 (List.length s))
    as (Hle & Hlow & Hhigh); auto; try lia.
  { intros i y Hi Hy. assert (nth_error s i = None)
      by (apply nth_error_None; lia). congruence. }
  fold p in Hle, Hlow, Hhigh. split; apply Forall_nth_error; intros i y Hy.
  - assert (Hi : (i < p)%nat).
    { assert (Hlt : (i < List.length (firstn p s))%nat)
        by (apply nth_error_Some; congruence).
      rewrite length_firstn in Hlt. lia. }
    rewrite nth_error_firstn in Hy.
    destruct (Nat.ltb_spec i p); [|lia].
    unfold not_after. rewrite <- precedes_after. eauto.
  - rewrite nth_error_skipn in Hy.
    rewrite <- precedes_after. apply (Hhigh (p + i)%nat); auto. lia.
Qed.

Lemma StronglySorted_app_intro (R : A -> A -> Prop) s1 s2 :
  StronglySorted R s1 -> StronglySorted R s2 ->
  (forall x y, In x s1 -> In y s2 -> R x y) ->
  StronglySorted R (s1 ++ s2).
Proof.
  induction 1 as [|z t Ht IH Hz]; intros H2 Hx; [exact H2|].
  simpl. constructor.
  - apply IH; auto. intros; apply Hx; simpl; auto.
  - apply Forall_app. split; [exact Hz|].
    apply Forall_forall. intros y Hy. apply Hx; simpl; auto.
Qed.

Lemma StronglySorted_firstn (R : A -> A -> Prop) n s :
  StronglySorted R s -> StronglySorted R (firstn n s).
Proof.
  intros Hs. revert n. induction Hs as [|z t Ht IH Hz]; intros [|n];
    cbn; try constructor; auto.
  rewrite Forall_forall in *. intros y Hy. apply Hz.
  eapply In_firstn; eauto.
Qed.

Lemma StronglySorted_skipn (R : A -> A -> Prop) n s :
  StronglySorted R s -> StronglySorted R (skipn n s).
Proof.
  intros Hs. revert n. induction Hs as [|z t Ht IH Hz]; intros [|n];
    cbn; try constructor; auto.
Qed.

Lemma insert_pivot_perm s pivot :
  Permutation (s ++ [pivot]) (insert_pivot comparefn s pivot).
Proof.
  unfold insert_pivot.
  set (p := insertion_point _ _ _ _ _ _).
  rewrite <- (firstn_skipn p s) at 1. rewrite <- app_assoc.
  apply Permutation_app_head. symmetry. apply Permutation_cons_append.
Qed.

Lemma insert_pivot_ordered s pivot :
  In pivot l -> incl s l -> StronglySorted (not_after comparefn) s ->
  StronglySorted (not_after comparefn) (insert_pivot comparefn s pivot).
Proof.
  intros Hp Hs Hsorted.
  destruct (insertion_point_splits s pivot Hp Hs Hsorted) as [Hlow Hhigh].
  unfold insert_pivot.
  set (p := insertion_point _ _ _ _ _ _) in *.
  rewrite Forall_forall in Hlow, Hhigh.
  assert (Hin1 : forall x, In x (firstn p s) -> In x l)
    by (intros x Hx; apply Hs; eapply In_firstn; eauto).
  assert (Hin2 : forall x, In x (skipn p s) -> In x l)
    by (intros x Hx; apply Hs; eapply In_skipn; eauto).
  apply StronglySorted_app_intro.
  - now apply StronglySorted_firstn.
  - constructor; [now apply StronglySorted_skipn|].
    apply Forall_forall. intros y Hy.
    apply consistent_total; auto.
  - intros x y Hx [<-|Hy]; [auto|].
    destruct Hcons as [_ Htr].
    apply (Htr x pivot y); auto.
    apply consistent_total; auto.
Qed.

Lemma insert_pivot_stable x s pivot :
  In x l -> In pivot l -> incl s l ->
  StronglySorted (not_after comparefn) s ->
  List.filter (tied comparefn x) (insert_pivot comparefn s pivot)
  = List.filter (tied comparefn x) (s ++ [pivot]).
Proof.
  intros Hx Hp Hs Hsorted.
  destruct (insertion_point_splits s pivot Hp Hs Hsorted) as [_ Hhigh].
  unfold insert_pivot.
  set (p := insertion_point _ _ _ _ _ _) in *.
  rewrite Forall_forall in Hhigh.
  rewrite <- (firstn_skipn p s) at 3.
  rewrite !List.filter_app. cbn [List.filter].
  destruct (tied comparefn x pivot) eqn:Hxp; [|now rewrite app_nil_r].
  assert (Hnone : List.filter (tied comparefn x) (skipn p s) = []).
  { apply filter_none. intros y Hy.
    destruct (tied comparefn x y) eqn:Hxy; [|reflexivity].
    assert (Hyl : In y l) by (apply Hs; eapply In_skipn; eauto).
    assert (Hyp : tied comparefn y pivot = true).
    { apply (consistent_tied_trans y x pivot); auto.
      now rewrite tied_sym. }
    unfold tied in Hyp. rewrite (Hhigh y Hy) in Hyp. discriminate. }
  rewrite Hnone. now rewrite app_nil_r.
Qed.

(** **** The first run *)

(** The elements of the run, each related to the next. *)
Lemma run_continues_chain isDescending previousElement t :
  let n := run_continues comparefn isDescending previousElement t in
  (n <= List.length t)%nat
  /\ Sorted (fun a b => precedes comparefn b a = isDescending)
       (previousElement :: firstn n t).
Proof.
  revert previousElement. induction t as [|c t IH]; intros prev; cbn.
  - split; [lia|]. repeat constructor.
  - destruct (Bool.eqb_spec (precedes comparefn c prev) isDescending) as [E|E].
    + destruct (IH c) as [Hn Hc]. cbn. split; [lia|].
      constructor; [exact Hc|]. constructor. exact E.
    + cbn. split; [lia|]. repeat constructor.
Qed.

Lemma Sorted_impl_rel (R R' : A -> A -> Prop) s :
  (forall a b, R a b -> R' a b) -> Sorted R s -> Sorted R' s.
Proof.
  intros Hi. induction 1 as [|z t Ht IH Hz]; constructor; [exact IH|].
  destruct Hz; constructor; auto.
Qed.

Lemma Sorted_StronglySorted_on (R : A -> A -> Prop) s :
  (forall a b c, In a s -> In b s -> In c s -> R a b -> R b c -> R a c) ->
  Sorted R s -> StronglySorted R s.
Proof.
  intros Htr Hs. induction Hs as [|z t Ht IH Hz]; [constructor|].
  assert (IH' : StronglySorted R t).
  { apply IH. intros a b c Ha Hb Hc. apply Htr; simpl; auto. }
  constructor; [exact IH'|].
  destruct Hz as [|y t' Hzy]; [constructor|].
  apply StronglySorted_inv in IH' as [_ Hy].
  constructor; [exact Hzy|].
  rewrite Forall_forall in *. intros w Hw.
  apply (Htr z y w); simpl; auto.
Qed.

(** Reversing a strictly descending run does not move records that
    compare as equal: there are no two of them in the run. *)
Lemma filter_rev_descending x s :
  In x l -> incl s l ->
  StronglySorted (fun a b => after comparefn a b = true) s ->
  List.filter (tied comparefn x) (rev s) = List.filter (tied comparefn x) s.
Proof.
  intros Hx Hs Hd. induction Hd as [|z t Ht IH Hz]; [reflexivity|].
  cbn [rev]. rewrite List.filter_app, IH
    by (intros y Hy; apply Hs; simpl; auto).
  cbn [List.filter].
  destruct (tied comparefn x z) eqn:Hxz; [|apply app_nil_r].
  rewrite filter_none; [reflexivity|].
  intros y Hy. destruct (tied comparefn x y) eqn:Hxy; [|reflexivity].
  assert (Hzy : tied comparefn z y = true).
  { apply (consistent_tied_trans z x y); auto.
    - apply Hs; simpl; auto.
    - apply Hs; simpl; auto.
    - now rewrite tied_sym. }
  rewrite Forall_forall in Hz. unfold tied in Hzy.
  rewrite (Hz y Hy) in Hzy. discriminate.
Qed.

Lemma CountAndMakeRun_spec s :
  incl s l ->
  let '(runLength, workArray) := CountAndMakeRun comparefn s in
  Permutation (firstn runLength s) (firstn runLength workArray)
  /\ skipn runLength workArray = skipn runLength s
  /\ StronglySorted (not_after comparefn) (firstn runLength workArray)
  /\ forall x, In x l ->
       List.filter (tied comparefn x) (firstn runLength workArray)
       = List.filter (tied comparefn x) (firstn runLength s).
Proof.
  intros Hsl. unfold CountAndMakeRun.
  destruct s as [|hi [|lo t]].
  - cbn. repeat split; constructor.
  - cbn. repeat split; auto. repeat constructor.
  - set (d := precedes comparefn lo hi).
    destruct (run_continues_chain d lo t) as [Hn Hchain].
    set (n := run_continues comparefn d lo t) in *.
    assert (Hrun : firstn (2 + n) (hi :: lo :: t) = hi :: lo :: firstn n t)
      by reflexivity.
    assert (Hs : Sorted (fun a b => precedes comparefn b a = d)
                   (hi :: lo :: firstn n t)).
    { constructor; [exact Hchain|]. constructor. reflexivity. }
    assert (Hincl : incl (hi :: lo :: firstn n t) l).
    { intros y Hy. apply Hsl. destruct Hy as [<-|[<-|Hy]]; simpl; auto.
      right; right. eapply In_firstn; eauto. }
    destruct d eqn:Hd.
    + (* a descending run, reversed *)
      assert (Hlen : List.length (rev (hi :: lo :: firstn n t)) = (2 + n)%nat).
      { rewrite length_rev. cbn [List.length]. rewrite length_firstn. lia. }
      rewrite Hrun.
      rewrite firstn_app, <- Hlen, firstn_all, Nat.sub_diag, firstn_O,
        app_nil_r.
      rewrite skipn_app, skipn_all, Nat.sub_diag, skipn_O. cbn [app].
      rewrite Hlen.
      assert (Hstrict : StronglySorted (fun a b => after comparefn a b = true)
                          (hi :: lo :: firstn n t)).
      { apply Sorted_StronglySorted_on.
        - intros a b c Ha Hb Hc. apply consistent_after_trans; auto.
        - refine (Sorted_impl_rel _ _ _ _ Hs).
          intros a b. now rewrite precedes_after. }
      split; [apply Permutation_rev|]. split; [reflexivity|]. split.
      * apply (StronglySorted_impl_In
                 (fun a b => after comparefn b a = true)).
        -- intros a b Ha Hb. apply in_rev in Ha, Hb.
           apply consistent_total; auto.
        -- now apply StronglySorted_rev.
      * intros x Hx. now apply filter_rev_descending.
    + (* an ascending run, left as it is *)
      split; [reflexivity|]. split; [reflexivity|]. split; [|reflexivity].
      rewrite Hrun. apply Sorted_StronglySorted_on.
      * intros a b c Ha Hb Hc. destruct Hcons as [_ Htr]. apply Htr; auto.
      * refine (Sorted_impl_rel _ _ _ _ Hs).
        intros a b. unfold not_after. now rewrite precedes_after.
Qed.

(** **** The whole sort *)

Lemma BinaryInsertionSort_spec rest : forall pre sorted,
  incl (pre ++ rest) l ->
  Permutation pre sorted ->
  StronglySorted (not_after comparefn) sorted ->
  (forall x, In x l -> List.filter (tied comparefn x) sorted
                       = List.filter (tied comparefn x) pre) ->
  let out := BinaryInsertionSort comparefn sorted rest in
  Permutation (pre ++ rest) out
  /\ StronglySorted (not_after comparefn) out
  /\ forall x, In x l -> List.filter (tied comparefn x) out
                         = List.filter (tied comparefn x) (pre ++ rest).
Proof.
  induction rest as [|pivot rest IH]; intros pre sorted Hincl Hperm Hs Hst.
  - cbn. rewrite app_nil_r. auto.
  - assert (Hp : In pivot l) by (apply Hincl, in_or_app; simpl; auto).
    assert (Hsl : incl sorted l).
    { intros y Hy. apply Hincl, in_or_app. left.
      now apply (Permutation_in _ (Permutation_sym Hperm)). }
    replace (pre ++ pivot :: rest) with ((pre ++ [pivot]) ++ rest) in *
      by now rewrite <- app_assoc.
    change (BinaryInsertionSort comparefn sorted (pivot :: rest))
      with (BinaryInsertionSort comparefn
              (insert_pivot comparefn sorted pivot) rest).
    apply IH; auto.
    + rewrite <- insert_pivot_perm. now apply Permutation_app_tail.
    + now apply insert_pivot_ordered.
    + intros x Hx. rewrite insert_pivot_stable by auto.
      rewrite !List.filter_app. now rewrite Hst.
Qed.

(** With a consistent comparator the engine computes what [Array_sort]
    computes. *)
Lemma V8_sort_consistent : V8_sort comparefn l = Array_sort comparefn l.
Proof.
  unfold V8_sort.
  pose proof (CountAndMakeRun_spec l (incl_refl l)) as Hrun.
  destruct (CountAndMakeRun comparefn l) as [n w].
  destruct Hrun as (Hperm & Hskip & Hs & Hst).
  destruct (BinaryInsertionSort_spec (skipn n w) (firstn n l) (firstn n w))
    as (Hp & Ho & Hf); auto.
  { rewrite Hskip, firstn_skipn. apply incl_refl. }
  rewrite Hskip, firstn_skipn in Hp, Hf. rewrite <- Hskip in Hp, Hf.
  apply Array_sort_determined; auto.
  intros a b c. now apply consistent_tied_trans.
Qed.

End V8SortFacts.

(** ** The sort stage *)

Example iso_epoch : iso_Date_parse "1970-01-01" = Fin 0.
Proof. reflexivity. Qed.

Example iso_2020_09_26 : iso_Date_parse "2020-09-26" = Fin 1601078400000.
Proof. reflexivity. Qed.

Example iso_not_a_day : iso_Date_parse "2021-02-30" = NaN.
Proof. reflexivity. Qed.

Lemma js_gt_difference x y :
  js_gt (match number_sub x y with NaN => Fin 0 | v => v end) (Fin 0)
  = js_lt y x.
Proof.
  destruct x as [| |a|], y as [| |b|]; try reflexivity.
  unfold js_gt, js_lt, IsLessThan, number_sub.
  destruct (Z.ltb_spec 0 (a - b)), (Z.ltb_spec b a); reflexivity || lia.
Qed.

Lemma js_lt_difference x y :
  js_lt (match number_sub x y with NaN => Fin 0 | v => v end) (Fin 0)
  = js_lt x y.
Proof.
  destruct x as [| |a|], y as [| |b|]; try reflexivity.
  unfold js_lt, IsLessThan, number_sub.
  destruct (Z.ltb_spec (a - b) 0), (Z.ltb_spec a b); reflexivity || lia.
Qed.

Lemma js_lt_asym x y : js_lt x y = true -> js_lt y x = false.
Proof.
  destruct x as [| |a|], y as [| |b|]; try reflexivity; try discriminate.
  unfold js_lt, IsLessThan.
  destruct (Z.ltb_spec a b), (Z.ltb_spec b a);
    try reflexivity; try discriminate.
  lia.
Qed.

Lemma js_lt_trans x y z :
  js_lt x y = true -> js_lt y z = true -> js_lt x z = true.
Proof.
  destruct x as [| |a|], y as [| |b|], z as [| |c|];
    try reflexivity; try discriminate.
  unfold js_lt, IsLessThan.
  destruct (Z.ltb_spec a b), (Z.ltb_spec b c), (Z.ltb_spec a c);
    try reflexivity; try discriminate.
  lia.
Qed.

Lemma number_sub_zero_sym x y :
  match number_sub x y with NaN => Fin 0 | v => v end = Fin 0 ->
  match number_sub y x with NaN => Fin 0 | v => v end = Fin 0.
Proof.
  destruct x as [| |a|], y as [| |b|]; try reflexivity; try discriminate.
  simpl. intros [= H]. f_equal. lia.
Qed.

Lemma number_sub_nonzero x y :
  match number_sub x y with NaN => Fin 0 | v => v end <> Fin 0 ->
  js_lt x y = true \/ js_lt y x = true.
Proof.
  destruct x as [| |a|], y as [| |b|]; simpl; try tauto; auto.
  unfold js_lt, IsLessThan. intros H.
  destruct (Z.ltb_spec a b), (Z.ltb_spec b a); auto.
  exfalso. apply H. f_equal. lia.
Qed.

Lemma compareFn_asc `{Host} k a b :
  compareFn (ascending k) a b
  = if recognized k then number_sub (sortKey k a) (sortKey k b) else Fin 0.
Proof.
  unfold compareFn, recognized, sortKey, ascending. cbn [key direction].
  destruct (String.eqb k "date"); reflexivity.
Qed.

(** Descending order exchanges the arguments of the comparator. *)
Lemma compareFn_desc `{Host} k d a b :
  d <> "asc" ->
  compareFn {| key := k; direction := d |} a b = compareFn (ascending k) b a.
Proof.
  intros Hd. unfold compareFn, ascending. cbn [key direction].
  destruct (String.eqb_spec d "asc"); [contradiction|].
  rewrite String.eqb_refl.
  destruct (String.eqb k "date"); [reflexivity|].
  destruct (String.eqb k "revenue" || String.eqb k "netIncome"); reflexivity.
Qed.

(** Every comparator of the sort stage is, up to the order of its
    arguments, the difference of two sort keys, or constantly zero. *)
Lemma compareFn_cases `{Host} cfg :
  (forall a b, compareFn cfg a b = Fin 0)
  \/ (forall a b, compareFn cfg a b
                  = number_sub (sortKey (key cfg) a) (sortKey (key cfg) b))
  \/ (forall a b, compareFn cfg a b
                  = number_sub (sortKey (key cfg) b) (sortKey (key cfg) a)).
Proof.
  destruct cfg as [k d]. cbn [key].
  destruct (recognized k) eqn:Hk.
  - destruct (String.eqb_spec d "asc") as [->|Hd].
    + right; left. intros a b. fold (ascending k).
      now rewrite compareFn_asc, Hk.
    + right; right. intros a b.
      now rewrite (compareFn_desc _ _ _ _ Hd), compareFn_asc, Hk.
  - left. intros a b.
    destruct (String.eqb_spec d "asc") as [->|Hd].
    + fold (ascending k). now rewrite compareFn_asc, Hk.
    + now rewrite (compareFn_desc _ _ _ _ Hd), compareFn_asc, Hk.
Qed.

Lemma after_asym `{Host} cfg a b :
  after (compareFn cfg) a b = true -> after (compareFn cfg) b a = false.
Proof.
  unfold after, SortCompare.
  destruct (compareFn_cases cfg) as [E|[E|E]]; rewrite !E;
    [discriminate| |]; rewrite !js_gt_difference; apply js_lt_asym.
Qed.

Lemma after_refl `{Host} cfg a : after (compareFn cfg) a a = false.
Proof.
  destruct (after (compareFn cfg) a a) eqn:E; [|reflexivity].
  pose proof (after_asym _ _ _ E). congruence.
Qed.

Lemma after_trans `{Host} cfg a b c :
  after (compareFn cfg) a b = true -> after (compareFn cfg) b c = true ->
  after (compareFn cfg) a c = true.
Proof.
  unfold after, SortCompare.
  destruct (compareFn_cases cfg) as [E|[E|E]]; rewrite !E;
    [discriminate| |]; rewrite !js_gt_difference; intros H1 H2.
  - exact (js_lt_trans _ _ _ H2 H1).
  - exact (js_lt_trans _ _ _ H1 H2).
Qed.

Lemma SortCompare_sym `{Host} cfg a b :
  SortCompare (compareFn cfg) a b = Fin 0 ->
  SortCompare (compareFn cfg) b a = Fin 0.
Proof.
  unfold SortCompare.
  destruct (compareFn_cases cfg) as [E|[E|E]]; rewrite !E;
    [reflexivity| |]; apply number_sub_zero_sym.
Qed.

Lemma SortCompare_zero_not_after `{Host} cfg a b :
  SortCompare (compareFn cfg) a b = Fin 0 -> after (compareFn cfg) a b = false.
Proof. unfold after. now intros ->. Qed.

Lemma SortCompare_refl `{Host} cfg a : SortCompare (compareFn cfg) a a = Fin 0.
Proof.
  unfold SortCompare.
  destruct (compareFn_cases cfg) as [E|[E|E]]; rewrite !E; [reflexivity| |];
    destruct (sortKey (key cfg) a); simpl; try reflexivity; f_equal; lia.
Qed.

Lemma SortCompare_nonzero `{Host} cfg a b :
  SortCompare (compareFn cfg) a b <> Fin 0 ->
  after (compareFn cfg) a b = true \/ after (compareFn cfg) b a = true.
Proof.
  unfold after, SortCompare.
  destruct (compareFn_cases cfg) as [E|[E|E]]; rewrite !E;
    [congruence| |]; rewrite !js_gt_difference; intros Hn;
    apply number_sub_nonzero in Hn; tauto.
Qed.

Lemma after_by_key `{Host} cfg a b :
  after (compareFn cfg) a b
  = if recognized (key cfg)
    then if String.eqb (direction cfg) "asc"
         then js_lt (sortKey (key cfg) b) (sortKey (key cfg) a)
         else js_lt (sortKey (key cfg) a) (sortKey (key cfg) b)
    else false.
Proof.
  destruct cfg as [k d]. cbn [key direction]. unfold after, SortCompare.
  destruct (String.eqb_spec d "asc") as [->|Hd].
  - fold (ascending k). rewrite compareFn_asc.
    destruct (recognized k); [apply js_gt_difference|reflexivity].
  - rewrite (compareFn_desc _ _ _ _ Hd), compareFn_asc.
    destruct (recognized k); [apply js_gt_difference|reflexivity].
Qed.

Lemma js_lt_false_trans x y z :
  y <> NaN -> js_lt y x = false -> js_lt z y = false -> js_lt z x = false.
Proof.
  destruct x as [| |a|], y as [| |b|], z as [| |c|]; intros Hy;
    try contradiction; try reflexivity; try discriminate.
  unfold js_lt, IsLessThan.
  destruct (Z.ltb_spec b a), (Z.ltb_spec c b), (Z.ltb_spec c a);
    try reflexivity; try discriminate.
  lia.
Qed.

Lemma keys_present_consistent `{Host} cfg records :
  (recognized (key cfg) = true -> keys_present (key cfg) records) ->
  consistent_on (compareFn cfg) records.
Proof.
  intros Hk. split.
  - intros a b _ _. unfold not_after.
    destruct (after (compareFn cfg) a b) eqn:E; [right|left; reflexivity].
    now apply after_asym.
  - intros a b c Ha Hb Hc. unfold not_after. rewrite !after_by_key.
    destruct (recognized (key cfg)); [|reflexivity].
    specialize (Hk eq_refl). unfold keys_present in Hk.
    rewrite Forall_forall in Hk. specialize (Hk b Hb).
    destruct (String.eqb (direction cfg) "asc"); intros H1 H2.
    + exact (js_lt_false_trans _ _ _ Hk H1 H2).
    + exact (js_lt_false_trans _ _ _ Hk H2 H1).
Qed.

Lemma sortedData_Array_sort `{Host} cfg records :
  sortedData cfg records = Array_sort (compareFn cfg) records.
Proof.
  unfold sortedData, truthy.
  destruct (String.eqb_spec (key cfg) EmptyString) as [E|]; [|reflexivity].
  cbn [negb]. symmetry. apply Array_sort_constant. intros a b.
  unfold compareFn. now rewrite E.
Qed.

(** A negative answer of the comparator one way is a positive answer the
    other way. *)
Lemma compareFn_precedes `{Host} cfg a b :
  precedes (compareFn cfg) a b = after (compareFn cfg) b a.
Proof.
  unfold precedes, after, SortCompare.
  destruct (compareFn_cases cfg) as [E|[E|E]]; rewrite !E;
    [reflexivity| |]; now rewrite js_lt_difference, js_gt_difference.
Qed.

Lemma sortedData_V8_sort `{Host} cfg records :
  consistent_on (compareFn cfg) records ->
  V8_sort (compareFn cfg) records = sortedData cfg records.
Proof.
  intros Hc. rewrite sortedData_Array_sort.
  apply V8_sort_consistent; [|exact Hc].
  intros x y. apply compareFn_precedes.
Qed.

Lemma sortedData_stable `{Host} cfg records (P : FinancialRecord -> bool) :
  (forall a b, In a records -> In b records -> P a = true -> P b = true ->
               SortCompare (compareFn cfg) a b = Fin 0) ->
  List.filter P (sortedData cfg records) = List.filter P records.
Proof.
  intros Hties. rewrite sortedData_Array_sort.
  apply Array_sort_stable. intros a b Ha Hb Pa Pb.
  apply SortCompare_zero_not_after. auto.
Qed.

Lemma sortedData_perm `{Host} cfg records :
  Permutation records (sortedData cfg records).
Proof. rewrite sortedData_Array_sort. apply Array_sort_perm. Qed.

Lemma one_of_left a b : one_of a b a = true.
Proof.
  unfold one_of. destruct (record_eq_dec a a); [reflexivity|contradiction].
Qed.

Lemma one_of_right a b : one_of a b b = true.
Proof.
  unfold one_of. destruct (record_eq_dec b a); [reflexivity|].
  destruct (record_eq_dec b b); [reflexivity|contradiction].
Qed.

Lemma one_of_cases a b r : one_of a b r = true -> r = a \/ r = b.
Proof.
  unfold one_of. destruct (record_eq_dec r a); [auto|].
  destruct (record_eq_dec r b); [auto|discriminate].
Qed.

(** C4, as stated, fails when a record lacks the sort key.  Of the four
    records below, with revenues 30, 10, none and 20, the one without
    revenue compares as equal with the one whose revenue is 20, whichever
    comes first (the comparator answers NaN, which counts as 0), and it
    comes before that record in the input.  Sorted by ascending revenue,
    it comes after that record. *)
Lemma tied_records_are_reordered :
  SortCompare (@compareFn iso_host (ascending "revenue"))
    no_revenue_record (record_of_year "2024" 20) = Fin 0
  /\ SortCompare (@compareFn iso_host (ascending "revenue"))
       (record_of_year "2024" 20) no_revenue_record = Fin 0
  /\ missing_revenue_four
     = [record_of_year "2021" 30; record_of_year "2022" 10]
       ++ no_revenue_record :: [] ++ record_of_year "2024" 20 :: []
  /\ V8_sort (@compareFn iso_host (ascending "revenue")) missing_revenue_four
     = [record_of_year "2022" 10]
       ++ record_of_year "2024" 20 :: [record_of_year "2021" 30]
       ++ no_revenue_record :: [].
Proof. repeat split. Qed.

(** C4, amended.  Where the comparator is consistent on the records, as
    it is when no record lacks the sort key, the order of the output is
    determined, it is the order the engine computes, and the sort is
    stable, in either direction and for every key: the records of any set
    whose members compare as equal with one another appear in the output
    in their input order; in particular, of two records that compare as
    equal, the one that comes first in the input comes first in the
    output.  Descending order is obtained by exchanging the arguments of
    the comparator, and the output is a rearrangement of the input, not a
    reversed array. *)
Theorem sort_is_stable `{Host} :
  (forall cfg records,
      consistent_on (compareFn cfg) records ->
      V8_sort (compareFn cfg) records = sortedData cfg records
      /\ (forall P : FinancialRecord -> bool,
            (forall a b, In a records -> In b records ->
                         P a = true -> P b = true ->
                         SortCompare (compareFn cfg) a b = Fin 0) ->
            List.filter P (sortedData cfg records) = List.filter P records)
      /\ (forall a b l1 l2 l3,
            SortCompare (compareFn cfg) a b = Fin 0 ->
            records = l1 ++ a :: l2 ++ b :: l3 ->
            exists m1 m2 m3,
              sortedData cfg records = m1 ++ a :: m2 ++ b :: m3))
  /\ (forall cfg records,
        (recognized (key cfg) = true -> keys_present (key cfg) records) ->
        consistent_on (compareFn cfg) records)
  /\ (forall k d a b,
        d <> "asc" ->
        compareFn {| key := k; direction := d |} a b
        = compareFn {| key := k; direction := "asc" |} b a)
  /\ (forall cfg records, Permutation records (sortedData cfg records)).
Proof.
  split; [|split; [|split]].
  - intros cfg records Hc. split; [now apply sortedData_V8_sort|]. split.
    + intros P. apply sortedData_stable.
    + intros a b l1 l2 l3 Hab ->.
      set (records := l1 ++ a :: l2 ++ b :: l3).
      assert (Hst : List.filter (one_of a b) (sortedData cfg records)
                    = List.filter (one_of a b) records).
      { apply sortedData_stable. intros x y _ _ Hx Hy.
        apply one_of_cases in Hx, Hy.
        destruct Hx as [->| ->], Hy as [->| ->];
          auto using SortCompare_refl, SortCompare_sym. }
      pose proof (filter_sublist (one_of a b) (sortedData cfg records))
        as Hsub.
      rewrite Hst in Hsub. subst records.
      rewrite filter_app in Hsub. cbn [List.filter] in Hsub.
      rewrite one_of_left, filter_app in Hsub. cbn [List.filter] in Hsub.
      rewrite one_of_right in Hsub.
      apply sublist_app_l in Hsub as (k1 & k2 & Hk & _ & Hsub).
      apply sublist_cons_l in Hsub as (k3 & k4 & -> & Hsub).
      apply sublist_app_l in Hsub as (k5 & k6 & -> & _ & Hsub).
      apply sublist_cons_l in Hsub as (k7 & k8 & -> & _).
      exists (k1 ++ k3), (k5 ++ k7), k8.
      rewrite Hk. now rewrite <- !app_assoc.
  - intros cfg records. apply keys_present_consistent.
  - intros k d a b Hd. now apply compareFn_desc.
  - intros cfg records. apply sortedData_perm.
Qed.

Lemma sort_is_stable_witness :
  consistent_on (@compareFn iso_host (descending "revenue")) tied_pair
  /\ SortCompare (@compareFn iso_host (descending "revenue"))
       (record_of_year "2023" 10) (record_of_year "2019" 10) = Fin 0
  /\ V8_sort (@compareFn iso_host (descending "revenue")) tied_pair
     = @sortedData iso_host (descending "revenue") tied_pair
  /\ exists m1 m2 m3,
       @sortedData iso_host (descending "revenue") tied_pair
       = m1 ++ record_of_year "2023" 10 :: m2 ++ record_of_year "2019" 10 :: m3.
Proof.
  assert (Hc : consistent_on (@compareFn iso_host (descending "revenue"))
                 tied_pair).
  { split.
    - intros a b [<-|[<-|[]]] [<-|[<-|[]]]; left; reflexivity.
    - intros a b c [<-|[<-|[]]] [<-|[<-|[]]] [<-|[<-|[]]] _ _; reflexivity. }
  assert (H : SortCompare (@compareFn iso_host (descending "revenue"))
                (record_of_year "2023" 10) (record_of_year "2019" 10) = Fin 0)
    by reflexivity.
  split; [exact Hc|]. split; [exact H|].
  destruct (proj1 (@sort_is_stable iso_host) (descending "revenue") tied_pair
              Hc) as (Hv & _ & Hpair).
  split; [exact Hv|].
  exact (Hpair (record_of_year "2023" 10) (record_of_year "2019" 10)
           [] [] [] H eq_refl).
Defined.

(** *** Ascending against descending *)

Lemma filter_singleton {A} (P : A -> bool) l x :
  NoDup l -> In x l -> P x = true ->
  (forall y, In y l -> P y = true -> y = x) ->
  List.filter P l = [x].
Proof.
  induction 1 as [|y t Hy Hnd IH]; intros Hin Px Huniq; [destruct Hin|].
  cbn [List.filter]. destruct Hin as [->|Hin].
  - rewrite Px. f_equal. apply filter_none. intros z Hz.
    destruct (P z) eqn:Pz; [|reflexivity].
    assert (z = x) by (apply Huniq; simpl; auto). subst. contradiction.
  - destruct (P y) eqn:Py.
    + assert (y = x) by (apply Huniq; simpl; auto). subst. contradiction.
    + apply IH; auto. intros; apply Huniq; simpl; auto.
Qed.

Lemma after_desc `{Host} k a b :
  after (compareFn (descending k)) a b = after (compareFn (ascending k)) b a.
Proof.
  unfold after, SortCompare, descending.
  now rewrite compareFn_desc by discriminate.
Qed.

Lemma no_ties_NoDup `{Host} k records : no_ties k records -> NoDup records.
Proof.
  induction 1 as [|a l Ha _ IH]; constructor; [|exact IH].
  intros Hin. rewrite Forall_forall in Ha.
  apply (Ha a Hin). apply SortCompare_refl.
Qed.

Lemma no_ties_strict `{Host} k records a b :
  no_ties k records -> In a records -> In b records ->
  a = b \/ after (compareFn (ascending k)) a b = true
  \/ after (compareFn (ascending k)) b a = true.
Proof.
  intros Hn Ha Hb.
  destruct (ForallOrdPairs_In Hn a b Ha Hb) as [E|[Hab|Hba]]; auto; right.
  - now apply SortCompare_nonzero.
  - apply SortCompare_nonzero in Hba. tauto.
Qed.

Lemma strict_consistent `{Host} cfg records :
  (forall a b, In a records -> In b records ->
               a = b \/ after (compareFn cfg) a b = true
               \/ after (compareFn cfg) b a = true) ->
  consistent_on (compareFn cfg) records.
Proof.
  intros Hs. split.
  - intros a b _ _. unfold not_after.
    destruct (after (compareFn cfg) a b) eqn:E; [right|left; reflexivity].
    now apply after_asym.
  - intros a b c Ha Hb Hc Hab Hbc. unfold not_after in *.
    destruct (Hs a b Ha Hb) as [->|[E|Hba]]; [exact Hbc|congruence|].
    destruct (Hs b c Hb Hc) as [->|[E|Hcb]]; [exact Hab|congruence|].
    destruct (after (compareFn cfg) a c) eqn:E; [|reflexivity].
    pose proof (after_trans _ _ _ _ Hcb Hba) as Hca.
    apply after_asym in Hca. congruence.
Qed.

Lemma reversed_desc_is_asc `{Host} k records :
  no_ties k records ->
  rev (Array_sort (compareFn (descending k)) records)
  = Array_sort (compareFn (ascending k)) records.
Proof.
  intros Hn.
  pose proof (no_ties_NoDup _ _ Hn) as Hnd.
  assert (Hstrict := fun a b => no_ties_strict k records a b Hn).
  assert (Hclass : forall x a, In x records -> In a records ->
                               tied (compareFn (ascending k)) x a = true ->
                               a = x).
  { intros x a Hx Ha Ht. unfold tied in Ht.
    apply andb_true_iff in Ht as [H1 H2].
    apply negb_true_iff in H1, H2.
    destruct (Hstrict x a Hx Ha) as [E|[E|E]]; congruence. }
  assert (Hself : forall x, tied (compareFn (ascending k)) x x = true).
  { intros x. unfold tied. now rewrite after_refl. }
  apply (ordered_stable_unique (compareFn (ascending k))).
  - intros x _. apply after_refl.
  - apply (StronglySorted_impl
             (fun x y => not_after (compareFn (descending k)) y x)).
    + intros x y. unfold not_after. now rewrite after_desc.
    + apply StronglySorted_rev.
      apply Array_sort_ordered, strict_consistent.
      intros a b Ha Hb. rewrite !after_desc.
      destruct (Hstrict a b Ha Hb) as [E|[E|E]]; auto.
  - apply Array_sort_ordered, strict_consistent.
    intros a b Ha Hb. now apply Hstrict.
  - intros x Hx.
    assert (Hxin : In x records).
    { destruct Hx as [Hx|Hx].
      - apply in_rev in Hx. now apply Array_sort_In_inv in Hx.
      - now apply Array_sort_In_inv in Hx. }
    rewrite filter_rev.
    rewrite (Array_sort_stable (compareFn (descending k))).
    2:{ intros a b Ha Hb Pa Pb.
        rewrite (Hclass x a Hxin Ha Pa), (Hclass x b Hxin Hb Pb).
        apply after_refl. }
    rewrite (Array_sort_stable (compareFn (ascending k))).
    2:{ intros a b Ha Hb Pa Pb.
        rewrite (Hclass x a Hxin Ha Pa), (Hclass x b Hxin Hb Pb).
        apply after_refl. }
    rewrite (filter_singleton _ records x); auto.
Qed.

(** C5, as stated, fails: the two records below have different values
    under the recognized key [revenue] (one has none, the other 5), and
    both directions leave them in input order, so the reversed descending
    output is not the ascending output. *)
Lemma reversed_desc_differs_with_missing_key :
  recognized "revenue" = true
  /\ NoDup (map (getField "revenue") missing_revenue_pair)
  /\ @sortedData iso_host (ascending "revenue") missing_revenue_pair
     = missing_revenue_pair
  /\ @sortedData iso_host (descending "revenue") missing_revenue_pair
     = missing_revenue_pair
  /\ rev (@sortedData iso_host (descending "revenue") missing_revenue_pair)
     <> @sortedData iso_host (ascending "revenue") missing_revenue_pair.
Proof.
  split; [reflexivity|]. split.
  - repeat constructor; simpl; intuition discriminate.
  - repeat split. discriminate.
Qed.

(** C5, amended.  For every record list in which no two records compare
    as equal under the comparator of the key (the difference of their sort
    keys is a number other than zero, so no sort key is missing or NaN
    and a [null] amount counts as 0), reversing the descending output
    gives exactly the ascending output. *)
Theorem reversed_descending_is_ascending `{Host} (k : string)
    (records : list FinancialRecord) :
  no_ties k records ->
  rev (sortedData {| key := k; direction := "desc" |} records)
  = sortedData {| key := k; direction := "asc" |} records.
Proof.
  intros Hn. rewrite !sortedData_Array_sort.
  now apply reversed_desc_is_asc.
Qed.

Lemma reversed_descending_is_ascending_witness :
  @no_ties iso_host "revenue" three_years
  /\ rev (@sortedData iso_host {| key := "revenue"; direction := "desc" |}
            three_years)
     = @sortedData iso_host {| key := "revenue"; direction := "asc" |}
         three_years.
Proof.
  assert (Hn : @no_ties iso_host "revenue" three_years).
  { unfold no_ties, three_years. repeat constructor; discriminate. }
  split; [exact Hn|].
  exact (@reversed_descending_is_ascending iso_host "revenue" three_years Hn).
Defined.

Example sorted_three_years :
  @sortedData iso_host (ascending "revenue") three_years
  = [record_of_year "2019" 10; record_of_year "2021" 20;
     record_of_year "2023" 30]
  /\ @sortedData iso_host (descending "date") three_years
     = [record_of_year "2023" 30; record_of_year "2021" 20;
        record_of_year "2019" 10].
Proof. split; reflexivity. Qed.

(** *** The input array *)

Lemma spread_fresh src (h : heap) xs :
  h !! src = Some xs ->
  let l := fresh (dom h) in
  spread src h = Some (l, <[l := xs]> h) /\ l <> src /\ h !! l = None.
Proof.
  intros Hsrc l. unfold spread. rewrite Hsrc.
  assert (Hl : h !! l = None).
  { apply not_elem_of_dom. apply is_fresh. }
  repeat split; [|exact Hl]. intros E. subst l. rewrite E in Hl. congruence.
Qed.

(** Sorting an array object in place does change it: the copy is what
    protects the input. *)
Example sort_in_place_changes_the_array :
  sort_in_place (@compareFn iso_host (ascending "revenue")) 1%positive
    sample_heap
  = Some {[ 1%positive := [record_of_year "2019" 10; record_of_year "2021" 20;
                           record_of_year "2023" 30] ]}.
Proof.
  unfold sort_in_place, sample_heap. rewrite lookup_singleton_eq.
  now rewrite insert_singleton_eq.
Qed.

(** C9.  The sort works on a copy: computing [sortedData] allocates a new
    array, sorts that one, and leaves every array that existed before,
    the input among them, with the same elements in the same order.  The
    new array holds the sorted records. *)
Theorem sort_leaves_input_unchanged `{Host} (cfg : SortConfig)
    (filteredData : loc) (h : heap) (xs : list FinancialRecord) :
  h !! filteredData = Some xs ->
  exists sortableData h',
    sortedData_heap cfg filteredData h = Some (sortableData, h')
    /\ sortableData <> filteredData
    /\ h !! sortableData = None
    /\ h' !! filteredData = Some xs
    /\ h' !! sortableData = Some (sortedData cfg xs)
    /\ forall l, l <> sortableData -> h' !! l = h !! l.
Proof.
  intros Hsrc.
  destruct (spread_fresh _ _ _ Hsrc) as (Hsp & Hne & Hnone).
  set (l := fresh (dom h)) in *.
  unfold sortedData_heap, sortedData. rewrite Hsp.
  destruct (truthy (key cfg)).
  - unfold sort_in_place. rewrite lookup_insert_eq.
    eexists _, _. split; [reflexivity|].
    repeat split; auto.
    + rewrite insert_insert_eq. now rewrite lookup_insert_ne.
    + now rewrite lookup_insert_eq.
    + intros l' Hl'. rewrite insert_insert_eq. now rewrite lookup_insert_ne.
  - eexists _, _. split; [reflexivity|].
    repeat split; auto.
    + now rewrite lookup_insert_ne.
    + now rewrite lookup_insert_eq.
    + intros l' Hl'. now rewrite lookup_insert_ne.
Qed.

Lemma sort_leaves_input_unchanged_witness :
  sample_heap !! 1%positive = Some three_years
  /\ exists sortableData h',
       @sortedData_heap iso_host (ascending "revenue") 1%positive sample_heap
       = Some (sortableData, h')
       /\ sortableData <> 1%positive
       /\ sample_heap !! sortableData = None
       /\ h' !! 1%positive = Some three_years
       /\ h' !! sortableData
          = Some (@sortedData iso_host (ascending "revenue") three_years)
       /\ forall l, l <> sortableData -> h' !! l = sample_heap !! l.
Proof.
  assert (H : sample_heap !! 1%positive = Some three_years) by reflexivity.
  split; [exact H|].
  exact (@sort_leaves_input_unchanged iso_host (ascending "revenue")
           1%positive sample_heap three_years H).
Defined.

(** ** The formatter *)

Example format_half_thousandth :
  formatToBillions (Num (Fin 1000500000)) = Normal "1.000 B"
  /\ formatToBillions (Num (Fin 500000)) = Normal "0.001 B".
Proof. split; vm_compute; reflexivity. Qed.

Example format_negative :
  formatToBillions (Num (Fin (-1234567))) = Normal "-0.001 B".
Proof. vm_compute. reflexivity. Qed.

Example format_zero : formatToBillions (Num (Fin 0)) = Normal "0.000 B".
Proof. vm_compute. reflexivity. Qed.

Example format_two_to_the_70 :
  exponential_string (2 ^ 70) = "1.1805916207174113e+21".
Proof. vm_compute. reflexivity. Qed.

Lemma append_assoc (a b c : string) :
  ((a ++ b) ++ c = a ++ (b ++ c))%string.
Proof. induction a; simpl; congruence. Qed.

Lemma length_append (a b : string) :
  String.length (a ++ b) = (String.length a + String.length b)%nat.
Proof. induction a; simpl; congruence. Qed.

Lemma all_digits_append (a b : string) :
  all_digits (a ++ b) = all_digits a && all_digits b.
Proof.
  induction a as [|c a IH]; simpl; [reflexivity|].
  now rewrite IH, andb_assoc.
Qed.

Lemma all_digits_zeros k : all_digits (zeros k) = true.
Proof. induction k; simpl; auto. Qed.

Lemma length_zeros k : String.length (zeros k) = k.
Proof. induction k; simpl; congruence. Qed.

Lemma all_digits_uint d : all_digits (NilEmpty.string_of_uint d) = true.
Proof. induction d; simpl; auto. Qed.

Lemma all_digits_decimal n : all_digits (decimal n) = true.
Proof.
  unfold decimal, NilZero.string_of_uint.
  destruct (N.to_uint (Z.to_N n)); try reflexivity; apply all_digits_uint.
Qed.

Lemma decimal_nonempty n : (1 <= String.length (decimal n))%nat.
Proof.
  unfold decimal, NilZero.string_of_uint.
  destruct (N.to_uint (Z.to_N n)); simpl; lia.
Qed.

Lemma last_three_digits s :
  all_digits s = true -> (4 <= String.length s)%nat ->
  int_part_then
    (substring 0 (String.length s - 3) s
     ++ String "." (substring (String.length s - 3) 3 s ++ " B")) = true.
Proof.
  induction s as [|c t IH]; [simpl; lia|].
  intros Hd Hl. cbn [all_digits] in Hd. apply andb_true_iff in Hd as [Hc Ht].
  cbn [String.length] in *.
  destruct (Nat.eq_dec (String.length t) 3) as [E|E].
  - destruct t as [|d1 [|d2 [|d3 [|]]]]; try discriminate.
    cbn [all_digits] in Ht. rewrite !andb_true_iff in Ht.
    destruct Ht as (H1 & H2 & H3 & _).
    cbn. rewrite Hc, H1, H2, H3. cbn. apply orb_true_r.
  - replace (S (String.length t) - 3)%nat
      with (S (String.length t - 3)) by lia.
    cbn [substring String.append int_part_then]. rewrite Hc.
    rewrite IH by (auto; lia). reflexivity.
Qed.

(** The fixed notation has exactly three digits after the point. *)
Lemma fixed_string_shape n :
  int_part_then (fixed_string 3 n ++ " B") = true.
Proof.
  unfold fixed_string.
  set (m := decimal n).
  set (m' := if (String.length m <=? 3)%nat
             then (zeros (3 + 1 - String.length m) ++ m)%string else m).
  assert (Hd : all_digits m' = true).
  { unfold m'. destruct (String.length m <=? 3)%nat.
    - rewrite all_digits_append, all_digits_zeros. apply all_digits_decimal.
    - apply all_digits_decimal. }
  assert (Hl : (4 <= String.length m')%nat).
  { unfold m'. destruct (Nat.leb_spec (String.length m) 3).
    - rewrite length_append, length_zeros. lia.
    - lia. }
  rewrite !append_assoc. cbn [String.append]. now apply last_three_digits.
Qed.

Lemma fixed3_B_digits (s : string) :
  int_part_then s = true -> fixed3_B s = true.
Proof.
  destruct s as [|c t]; [discriminate|]. intros Hs. unfold fixed3_B.
  destruct (code c =? 45) eqn:E; [|exact Hs].
  cbn [int_part_then] in Hs. apply andb_true_iff in Hs as [Hc _].
  unfold is_decimal_digit in Hc. lia.
Qed.

(** The digits printed are those of the multiple of [10^-f] nearest to
    the value [m * 2^e]. *)
Lemma nearest_scaled_nearest f m e :
  0 <= f ->
  (0 <= e -> nearest_scaled f m e = Zpos m * 2 ^ e * 10 ^ f)
  /\ (e < 0 ->
      Z.abs (2 * (nearest_scaled f m e * 2 ^ (- e)) - 2 * (Zpos m * 10 ^ f))
      <= 2 ^ (- e)).
Proof.
  intros Hf. unfold nearest_scaled. split; intros He.
  - replace (0 <=? e) with true by lia. reflexivity.
  - replace (0 <=? e) with false by lia.
    replace (1 - e) with (Z.succ (- e)) by lia.
    rewrite Z.pow_succ_r by lia.
    assert (HD : 0 < 2 ^ (- e)) by (apply Z.pow_pos_nonneg; lia).
    set (D := 2 ^ (- e)) in *.
    set (X := 2 * Z.pos m * 10 ^ f).
    pose proof (Z.div_mod (X + D) (2 * D) ltac:(lia)) as Hdm.
    pose proof (Z.mod_pos_bound (X + D) (2 * D) ltac:(lia)) as Hmod.
    set (N := (X + D) / (2 * D)) in *.
    replace (2 * (Z.pos m * 10 ^ f)) with X by (unfold X; lia).
    apply Z.abs_le. lia.
Qed.

(** What the formatter returns, by the binary64 quotient. *)
Lemma formatToBillions_cases n :
  match billions n with
  | S754_nan => formatToBillions (Num n) = Normal "NaN B"
  | S754_infinity false => formatToBillions (Num n) = Normal "Infinity B"
  | S754_infinity true => formatToBillions (Num n) = Normal "-Infinity B"
  | S754_zero _ => formatToBillions (Num n) = Normal "0.000 B"
  | S754_finite sx m e =>
      if (0 <=? e) && (10 ^ 21 <=? Zpos m * 2 ^ e)
      then formatToBillions (Num n)
           = Normal (sign_string sx
                     ++ exponential_string (Zpos m * 2 ^ e) ++ " B")%string
      else
        exists N s,
          formatToBillions (Num n) = Normal s
          /\ s = (sign_string sx ++ fixed_string 3 N ++ " B")%string
          /\ fixed3_B s = true
          /\ (0 <= e -> N = Zpos m * 2 ^ e * 1000)
          /\ (e < 0 ->
              Z.abs (2 * (N * 2 ^ (- e)) - 2 * (Zpos m * 1000))
              <= 2 ^ (- e))
  end.
Proof.
  unfold formatToBillions. fold (billions n).
  destruct (billions n) as [sz|[|]| |sx m e]; try reflexivity.
  unfold toFixed. change ((3 <? 0) || (100 <? 3)) with false. cbv iota.
  fold (sign_string sx).
  destruct ((0 <=? e) && (10 ^ 21 <=? Z.pos m * 2 ^ e)).
  - now rewrite append_assoc.
  - exists (nearest_scaled 3 m e),
      (sign_string sx ++ fixed_string 3 (nearest_scaled 3 m e) ++ " B")%string.
    split; [now rewrite append_assoc|]. split; [reflexivity|].
    destruct (nearest_scaled_nearest 3 m e ltac:(lia)) as [H1 H2].
    change (10 ^ 3) with 1000 in H1, H2.
    repeat split; auto.
    pose proof (fixed_string_shape (nearest_scaled 3 m e)) as Hs.
    destruct sx; cbn [sign_string String.append].
    + unfold fixed3_B. exact Hs.
    + now apply fixed3_B_digits.
Qed.

(** The examples of the specification. *)
Example format_one_billion :
  formatToBillions (Num (Fin 1000000000)) = Normal "1.000 B"
  /\ formatToBillions (Num (Fin 383285000000)) = Normal "383.285 B".
Proof. split; vm_compute; reflexivity. Qed.

(** C8.  The formatter does not keep to three decimal places for large
    amounts.  The amount 1e30 is the double 1000000000000000019884624838656;
    its quotient by one billion is the double 1e21, for which [toFixed(3)]
    answers in exponent notation, and the formatter returns ["1e+21 B"].
    That text is not a number with three decimal places followed by
    [" B"], which is what the claim and the comment on the line of
    [toFixed] ask for: ["1000000000000000000000.000 B"]. *)
Theorem large_amount_is_not_fixed_notation :
  number_of_Z (10 ^ 30) = Fin 1000000000000000019884624838656
  /\ billions (Fin 1000000000000000019884624838656)
     = to_binary64 (Fin (10 ^ 21))
  /\ formatToBillions (Num (Fin 1000000000000000019884624838656))
     = Normal "1e+21 B"
  /\ fixed3_B "1e+21 B" = false
  /\ fixed3_B "1000000000000000000000.000 B" = true.
Proof. repeat split; vm_compute; reflexivity. Qed.

(** * Part 4: further properties of the component *)

(** ** The filtered view over the life of the component *)

Lemma applyFilters_frame st :
  data (applyFilters st) = data st
  /\ loading (applyFilters st) = loading st
  /\ error (applyFilters st) = error st
  /\ filters (applyFilters st) = filters st
  /\ sortConfig (applyFilters st) = sortConfig st
  /\ isFilterVisible (applyFilters st) = isFilterVisible st.
Proof.
  unfold applyFilters. destruct (data st) eqn:Hd; cbn; rewrite ?Hd;
    repeat split.
Qed.

Lemma applyFilters_in_sync st : view_in_sync st -> applyFilters st = st.
Proof.
  unfold view_in_sync, applyFilters. destruct st as [d fd lo er vis fs cfg].
  cbn [data filteredData filters]. destruct d as [d|]; [|reflexivity].
  intros ->. reflexivity.
Qed.

Lemma act_UI_frame e st :
  data (act (UI e) st) = data st
  /\ loading (act (UI e) st) = loading st
  /\ error (act (UI e) st) = error st.
Proof.
  destruct e as [name value|k|]; cbn [act]; [|repeat split..].
  unfold filtersEffect.
  destruct (applyFilters_frame (handleFilterChange name value st))
    as (-> & -> & -> & _).
  unfold handleFilterChange. cbn [data loading error setFilters].
  destruct (applyFilters_frame st) as (-> & -> & -> & _). repeat split.
Qed.

Lemma run_UI_frame uis st :
  data (run (map UI uis) st) = data st
  /\ loading (run (map UI uis) st) = loading st
  /\ error (run (map UI uis) st) = error st.
Proof.
  revert st. induction uis as [|e uis IH]; intros st; [repeat split|].
  change (run (map UI (e :: uis)) st)
    with (run (map UI uis) (act (UI e) st)).
  destruct (IH (act (UI e) st)) as (H1 & H2 & H3).
  destruct (act_UI_frame e st) as (G1 & G2 & G3).
  rewrite H1, H2, H3. auto.
Qed.

Lemma act_view_in_sync a st : view_in_sync st -> view_in_sync (act a st).
Proof.
  intros Hs. destruct a as [[d|m]|[name value|k|]]; cbn [act];
    try exact Hs.
  - reflexivity.
  - destruct st as [d fd lo er vis fs cfg].
    unfold view_in_sync in *. cbn [data filteredData filters] in Hs.
    unfold filtersEffect, handleFilterChange, applyFilters.
    cbn [data setFilters]. destruct d as [d|].
    + reflexivity.
    + exact Hs.
Qed.

Lemma run_view_in_sync acts st : view_in_sync st -> view_in_sync (run acts st).
Proof.
  revert st. induction acts as [|a acts IH]; intros st Hs; [exact Hs|].
  cbn [run fold_left]. apply IH. now apply act_view_in_sync.
Qed.

(** X1.  The filtered view never goes stale: after the first render, and
    after every further action and the effect it triggers, [filteredData]
    is the filter of the dataset under the current criteria, and it is
    empty as long as no dataset has arrived. *)
Theorem filtered_view_stays_in_sync (acts : list Action) :
  view_in_sync (run acts mounted).
Proof. apply run_view_in_sync. reflexivity. Qed.

(** X2.  [handleFilterChange] calls [applyFilters] with an argument that
    [applyFilters] does not take: the handler itself stores the new
    criteria but leaves the view filtered by the previous ones; the new
    criteria reach the view through the effect that follows. *)
Theorem handler_filters_with_previous_criteria name value st d :
  data st = Some d ->
  filters (handleFilterChange name value st)
  = newFilters name value (filters st)
  /\ filteredData (handleFilterChange name value st)
     = filterRecords (filters st) d
  /\ filteredData (filtersEffect (handleFilterChange name value st))
     = filterRecords (newFilters name value (filters st)) d.
Proof.
  intros Hd. unfold filtersEffect, handleFilterChange, applyFilters.
  rewrite Hd. cbn [data setFilters setFilteredData filters filteredData].
  rewrite Hd. repeat split.
Qed.

Lemma handler_filters_with_previous_criteria_witness :
  let st := run [Fetched (Resolved three_years)] mounted in
  data st = Some three_years
  /\ filteredData (handleFilterChange "yearRange.start" "2022" st)
     = filterRecords (filters st) three_years
  /\ filterRecords (filters st) three_years
     = [record_of_year "2023" 30; record_of_year "2021" 20]
  /\ filteredData
       (filtersEffect (handleFilterChange "yearRange.start" "2022" st))
     = [record_of_year "2023" 30].
Proof.
  intros st.
  assert (Hd : data st = Some three_years) by reflexivity.
  destruct (handler_filters_with_previous_criteria
              "yearRange.start" "2022" st three_years Hd) as (_ & H2 & H3).
  split; [exact Hd|]. split; [exact H2|]. split; [reflexivity|].
  rewrite H3. reflexivity.
Defined.

(** ** What is rendered *)

Lemma renderRows_dates len index items :
  map dateCell (renderRows len index items) = map date items.
Proof.
  revert index. induction items as [|item rest IH]; intros index;
    [reflexivity|].
  cbn [renderRows map dateCell]. now rewrite IH.
Qed.

Lemma renderRows_length len index items :
  List.length (renderRows len index items) = List.length items.
Proof.
  revert index. induction items as [|item rest IH]; intros index;
    [reflexivity|].
  cbn [renderRows List.length]. now rewrite IH.
Qed.

Lemma run_fetched_resolved d uis :
  let st := run (Fetched (Resolved d) :: map UI uis) mounted in
  data st = Some d /\ loading st = false /\ error st = None
  /\ filteredData st = filterRecords (filters st) d.
Proof.
  intros st. subst st. cbn [run fold_left].
  set (st1 := act (Fetched (Resolved d)) mounted).
  fold (run (map UI uis) st1).
  destruct (run_UI_frame uis st1) as (Hd & Hl & He).
  assert (Hs : view_in_sync (run (map UI uis) st1)).
  { apply run_view_in_sync. reflexivity. }
  unfold view_in_sync in Hs. rewrite Hd in *.
  change (data st1) with (Some d) in *.
  rewrite Hl, He. repeat split. exact Hs.
Qed.

(** What the page shows in a state that is neither loading nor failed:
    the table exactly when the filtered view is not empty, with one row
    per record of the view, in the order of [sortedData]. *)
Lemma render_page `{Host} st :
  loading st = false -> error_shown (error st) = None ->
  exists label panel table,
    render st = PageView label panel table
    /\ (filteredData st = [] <-> table = None)
    /\ forall t, table = Some t ->
         List.length (rows t) = List.length (filteredData st)
         /\ Permutation (map dateCell (rows t)) (map date (filteredData st))
         /\ map dateCell (rows t)
            = map date (sortedData (sortConfig st) (filteredData st)).
Proof.
  intros Hl He. unfold render. rewrite Hl, He.
  eexists _, _, _. split; [reflexivity|].
  destruct (filteredData st) as [|r rest] eqn:Hf.
  - cbn [List.length Nat.ltb Nat.leb]. split; [tauto|]. discriminate.
  - cbn [List.length Nat.ltb Nat.leb]. split.
    + split; discriminate.
    + intros t [= <-]. cbn [rows].
      rewrite renderRows_length, renderRows_dates.
      pose proof (sortedData_perm (sortConfig st) (r :: rest)) as Hperm.
      split; [symmetry; apply (Permutation_length Hperm)|].
      split; [|reflexivity].
      symmetry. now apply Permutation_map.
Qed.

(** X3.  Once the dataset [d] has arrived, after every user action and
    the effect it triggers, the page is shown (never the loading or the
    error view); it has the table exactly when some record of [d] passes
    the current criteria, and the paragraph "No data available"
    otherwise.  The table has one row per passing record, and its date
    column is a rearrangement of the dates of the passing records; where
    the comparator is consistent on the passing records, the rows are in
    the order of [sortedData].  The render that comes before the effect
    shows the list the handler left: when the response arrives, one row
    for every record of [d], filtered or not; after a filter edit, the
    rows of the criteria before the edit. *)
Theorem page_shows_the_passing_records `{Host}
    (d : list FinancialRecord) (uis : list Event) :
  let st := run (Fetched (Resolved d) :: map UI uis) mounted in
  let passing := filterRecords (filters st) d in
  (exists label panel table,
      render st = PageView label panel table
      /\ (passing = [] <-> table = None)
      /\ forall t, table = Some t ->
           List.length (rows t) = List.length passing
           /\ Permutation (map dateCell (rows t)) (map date passing)
           /\ (consistent_on (compareFn (sortConfig st)) passing ->
               map dateCell (rows t)
               = map date (sortedData (sortConfig st) passing)))
  /\ (exists label panel table,
        render (fetchData_settled (Resolved d) mounted)
        = PageView label panel table
        /\ (d = [] <-> table = None)
        /\ forall t, table = Some t ->
             List.length (rows t) = List.length d
             /\ Permutation (map dateCell (rows t)) (map date d))
  /\ (forall name value, exists label panel table,
        render (handleFilterChange name value st)
        = PageView label panel table
        /\ (passing = [] <-> table = None)
        /\ forall t, table = Some t ->
             List.length (rows t) = List.length passing
             /\ Permutation (map dateCell (rows t)) (map date passing)).
Proof.
  intros st passing.
  destruct (run_fetched_resolved d uis) as (Hd & Hl & He & Hf).
  fold st in Hd, Hl, He, Hf. fold passing in Hf.
  split; [|split].
  - destruct (render_page st) as (label & panel & table & Hr & Hn & Ht);
      [exact Hl|now rewrite He|].
    rewrite Hf in Hn, Ht.
    exists label, panel, table. split; [exact Hr|]. split; [exact Hn|].
    intros t Hsome. destruct (Ht t Hsome) as (H1 & H2 & H3). auto.
  - destruct (render_page (fetchData_settled (Resolved d) mounted))
      as (label & panel & table & Hr & Hn & Ht); [reflexivity..|].
    change (filteredData (fetchData_settled (Resolved d) mounted))
      with d in Hn, Ht.
    exists label, panel, table. split; [exact Hr|]. split; [exact Hn|].
    intros t Hsome. destruct (Ht t Hsome) as (H1 & H2 & _). auto.
  - intros name value.
    assert (Hsync : applyFilters st = st).
    { apply applyFilters_in_sync. unfold view_in_sync. now rewrite Hd. }
    assert (Hh : handleFilterChange name value st
                 = setFilters (newFilters name value (filters st)) st).
    { unfold handleFilterChange. now rewrite Hsync. }
    destruct (render_page (handleFilterChange name value st))
      as (label & panel & table & Hr & Hn & Ht).
    { rewrite Hh. exact Hl. }
    { rewrite Hh. cbn [error setFilters]. now rewrite He. }
    rewrite Hh in Hn, Ht. cbn [filteredData setFilters] in Hn, Ht.
    rewrite Hf in Hn, Ht.
    exists label, panel, table. split; [exact Hr|]. split; [exact Hn|].
    intros t Hsome. destruct (Ht t Hsome) as (H1 & H2 & _). auto.
Qed.

Lemma page_shows_the_passing_records_witness :
  let st := run (Fetched (Resolved three_years)
                 :: map UI [SortClick "revenue";
                            FilterChange "yearRange.end" "2022"]) mounted in
  consistent_on (@compareFn iso_host (sortConfig st))
    (filterRecords (filters st) three_years)
  /\ exists label panel table,
       @render iso_host st = PageView label panel table
       /\ forall t, table = Some t ->
            map dateCell (rows t) = ["2021-09-30"].
Proof.
  intros st.
  assert (Hc : consistent_on (@compareFn iso_host (sortConfig st))
                 (filterRecords (filters st) three_years)).
  { split.
    - intros a b [<-|[]] [<-|[]]; left; reflexivity.
    - intros a b c [<-|[]] [<-|[]] [<-|[]] _ _; reflexivity. }
  split; [exact Hc|].
  destruct (@page_shows_the_passing_records iso_host three_years
              [SortClick "revenue"; FilterChange "yearRange.end" "2022"])
    as ((label & panel & table & Hr & _ & Ht) & _).
  exists label, panel, table. split; [exact Hr|].
  intros t Hsome. destruct (Ht t Hsome) as (_ & _ & Hdates).
  rewrite (Hdates Hc). reflexivity.
Defined.

(** X4.  Before the request settles the loading view is shown, whatever
    else happens.  After a failure with a message that is not empty, the
    error view with that message is shown, and no user action replaces
    it.  A failure whose message is the empty string is not shown as an
    error: [if (error)] is false for it, and the page says "No data
    available". *)
Theorem loading_and_error_views `{Host} :
  (forall uis, render (run (map UI uis) mounted) = LoadingView)
  /\ (forall m uis,
        m <> EmptyString ->
        render (run (Fetched (Rejected m) :: map UI uis) mounted)
        = ErrorView m)
  /\ (forall uis, exists label panel,
        render (run (Fetched (Rejected EmptyString) :: map UI uis) mounted)
        = PageView label panel None).
Proof.
  split; [|split].
  - intros uis. unfold render.
    destruct (run_UI_frame uis mounted) as (_ & -> & _). reflexivity.
  - intros m uis Hm. cbn [run fold_left].
    set (st1 := act (Fetched (Rejected m)) mounted).
    fold (run (map UI uis) st1). unfold render.
    destruct (run_UI_frame uis st1) as (_ & -> & ->).
    cbn [st1 act fetchData_settled loading error setLoading setError
         error_shown].
    destruct (String.eqb_spec m EmptyString); [contradiction|reflexivity].
  - intros uis.
    assert (Hs : view_in_sync
                   (run (Fetched (Rejected EmptyString) :: map UI uis)
                      mounted))
      by (apply run_view_in_sync; reflexivity).
    revert Hs. cbn [run fold_left].
    set (st1 := act (Fetched (Rejected EmptyString)) mounted).
    fold (run (map UI uis) st1). intros Hs. unfold render.
    destruct (run_UI_frame uis st1) as (Hd & -> & ->).
    unfold view_in_sync in Hs. rewrite Hd in Hs.
    change (data st1) with (@None (list FinancialRecord)) in Hs.
    cbn beta iota in Hs. rewrite Hs.
    cbn [st1 act fetchData_settled loading error setLoading setError
         error_shown String.eqb List.length Nat.ltb Nat.leb].
    eexists _, _. reflexivity.
Qed.

Lemma loading_and_error_views_witness :
  "Network Error" <> EmptyString
  /\ @render iso_host
       (run (Fetched (Rejected "Network Error")
             :: map UI [SortClick "revenue"; ToggleClick]) mounted)
     = ErrorView "Network Error".
Proof.
  assert (H : "Network Error" <> EmptyString) by discriminate.
  split; [exact H|].
  exact (proj1 (proj2 (@loading_and_error_views iso_host)) "Network Error"
           [SortClick "revenue"; ToggleClick] H).
Defined.

(** ** How the criteria decide *)

Lemma num_leq_trans a b c : num_leq a b -> num_leq b c -> num_leq a c.
Proof.
  destruct a as [| |x|], b as [| |y|], c as [| |z|]; simpl; try tauto; lia.
Qed.

Lemma js_ge_weaken x lo lo' :
  num_leq lo' lo -> js_ge x lo = true -> js_ge x lo' = true.
Proof.
  rewrite !js_ge_num_leq. intros H1 H2. exact (num_leq_trans _ _ _ H1 H2).
Qed.

Lemma js_le_weaken x hi hi' :
  num_leq hi hi' -> js_le x hi = true -> js_le x hi' = true.
Proof.
  rewrite !js_le_num_leq. intros H1 H2. exact (num_leq_trans _ _ _ H2 H1).
Qed.

Lemma filter_sublist_mono {A} (p q : A -> bool) (l : list A) :
  (forall x, p x = true -> q x = true) ->
  sublist (List.filter p l) (List.filter q l).
Proof.
  intros Hpq. induction l as [|x l IH]; simpl; [constructor|].
  destruct (p x) eqn:Hp.
  - rewrite (Hpq x Hp). now constructor.
  - destruct (q x); [now constructor|exact IH].
Qed.

Lemma filterCallback_true fs r :
  filterCallback fs r = true ->
  let year := parseInt (first_piece (split "-" (date r))) in
  js_ge year (start (yearRange fs)) = true
  /\ js_le year (end_ (yearRange fs)) = true
  /\ js_ge (ToNumber (revenue r)) (min (revenueRange fs)) = true
  /\ js_le (ToNumber (revenue r)) (max (revenueRange fs)) = true
  /\ js_ge (ToNumber (netIncome r)) (min (netIncomeRange fs)) = true
  /\ js_le (ToNumber (netIncome r)) (max (netIncomeRange fs)) = true.
Proof.
  unfold filterCallback. rewrite !andb_true_iff. tauto.
Qed.

(** X5.  Widening the criteria never loses a record: when every range of
    [fs] lies within the corresponding range of [fs'], each record that
    passes [fs] passes [fs'], and the view under [fs] is a subsequence of
    the view under [fs']. *)
Theorem widening_the_criteria_keeps_records fs fs' records :
  within fs fs' ->
  (forall r, filterCallback fs r = true -> filterCallback fs' r = true)
  /\ sublist (filterRecords fs records) (filterRecords fs' records).
Proof.
  intros (H1 & H2 & H3 & H4 & H5 & H6).
  assert (Hmono : forall r, filterCallback fs r = true ->
                            filterCallback fs' r = true).
  { intros r Hr. apply filterCallback_true in Hr.
    destruct Hr as (G1 & G2 & G3 & G4 & G5 & G6).
    unfold filterCallback.
    rewrite (js_ge_weaken _ _ _ H1 G1), (js_le_weaken _ _ _ H2 G2),
      (js_ge_weaken _ _ _ H3 G3), (js_le_weaken _ _ _ H4 G4),
      (js_ge_weaken _ _ _ H5 G5), (js_le_weaken _ _ _ H6 G6).
    reflexivity. }
  split; [exact Hmono|]. now apply filter_sublist_mono.
Qed.

Lemma widening_the_criteria_keeps_records_witness :
  within narrow_filters initialFilters
  /\ sublist (filterRecords narrow_filters three_years)
             (filterRecords initialFilters three_years).
Proof.
  assert (H : within narrow_filters initialFilters).
  { unfold within, narrow_filters, initialFilters; simpl. lia. }
  split; [exact H|].
  exact (proj2 (widening_the_criteria_keeps_records
                  narrow_filters initialFilters three_years H)).
Defined.

(** X6.  A range that contains no number empties the view: when, for the
    year, the revenue or the net income, a bound is NaN (as after typing
    text that [parseInt] cannot read) or the lower bound is above the
    upper one (as after choosing a start year later than the end year),
    no record passes. *)
Theorem an_empty_range_hides_everything fs records :
  some_range_empty fs -> filterRecords fs records = [].
Proof.
  intros He. apply filter_none. intros r _.
  destruct (filterCallback fs r) eqn:Hr; [exfalso|reflexivity].
  apply filterCallback_true in Hr.
  destruct Hr as (G1 & G2 & G3 & G4 & G5 & G6).
  rewrite js_ge_num_leq in G1, G3, G5. rewrite js_le_num_leq in G2, G4, G6.
  destruct He as [He|[He|He]]; apply He; eapply num_leq_trans; eauto.
Qed.

Lemma an_empty_range_hides_everything_witness :
  let st := handleFilterChange "yearRange.start" "2024"
              (handleFilterChange "yearRange.end" "2021" initialState) in
  some_range_empty (filters st)
  /\ filterRecords (filters st) three_years = [].
Proof.
  intros st.
  assert (H : some_range_empty (filters st)).
  { left. change (~ 2024 <= 2021). lia. }
  split; [exact H|].
  exact (an_empty_range_hides_everything (filters st) three_years H).
Defined.

(** X7.  An empty minimum means 0, not "no lower bound": after either
    minimum field is cleared, as under the initial criteria, every record
    whose amount in that field is negative is filtered out.  An empty
    maximum means no upper bound: after a maximum field is cleared, the
    upper comparison holds for every amount that is a number. *)
Theorem empty_minimum_excludes_negative_amounts :
  (forall st r z,
      z < 0 -> revenue r = Num (Fin z) ->
      filterCallback
        (filters (handleFilterChange "revenueRange.min" EmptyString st)) r
      = false)
  /\ (forall st r z,
        z < 0 -> netIncome r = Num (Fin z) ->
        filterCallback
          (filters (handleFilterChange "netIncomeRange.min" EmptyString st)) r
        = false)
  /\ (forall r z,
        z < 0 -> revenue r = Num (Fin z) \/ netIncome r = Num (Fin z) ->
        filterCallback initialFilters r = false)
  /\ (forall st x,
        x <> NaN ->
        js_le x (max (revenueRange
                  (filters (handleFilterChange "revenueRange.max"
                              EmptyString st)))) = true
        /\ js_le x (max (netIncomeRange
                     (filters (handleFilterChange "netIncomeRange.max"
                                 EmptyString st)))) = true).
Proof.
  assert (Hneg : forall z, z < 0 -> js_ge (Fin z) (Fin 0) = false).
  { intros z Hz. unfold js_ge, IsLessThan.
    destruct (Z.ltb_spec z 0); [reflexivity|lia]. }
  split; [|split; [|split]].
  - intros st r z Hz Hr. rewrite handleFilterChange_filters.
    unfold filterCallback. cbn. rewrite Hr. cbn [ToNumber].
    rewrite (Hneg z Hz). now rewrite !andb_false_r.
  - intros st r z Hz Hr. rewrite handleFilterChange_filters.
    unfold filterCallback. cbn. rewrite Hr. cbn [ToNumber].
    rewrite (Hneg z Hz). now rewrite !andb_false_r.
  - intros r z Hz [Hr|Hr]; unfold filterCallback; cbn; rewrite Hr;
      cbn [ToNumber]; rewrite (Hneg z Hz); now rewrite !andb_false_r.
  - intros st x Hx. rewrite !handleFilterChange_filters. cbn.
    destruct x; try contradiction; split; reflexivity.
Qed.

Lemma empty_minimum_excludes_negative_amounts_witness :
  -3 < 0 /\ netIncome loss_record = Num (Fin (-3))
  /\ filterCallback
       (filters (handleFilterChange "netIncomeRange.min" EmptyString
                   initialState)) loss_record = false.
Proof.
  assert (H : -3 < 0) by lia.
  split; [exact H|]. split; [reflexivity|].
  exact (proj1 (proj2 empty_minimum_excludes_negative_amounts)
           initialState loss_record (-3) H eq_refl).
Defined.

(** X8.  Edits of the six filter inputs are independent: edits of two
    different inputs give the same criteria in either order, and of two
    edits of the same input the later one wins. *)
Theorem filter_edits_are_independent (n1 n2 v1 v2 : string) (fs : Filters) :
  In n1 inputNames -> In n2 inputNames ->
  (n1 <> n2 ->
   newFilters n1 v1 (newFilters n2 v2 fs)
   = newFilters n2 v2 (newFilters n1 v1 fs))
  /\ newFilters n1 v1 (newFilters n1 v2 fs) = newFilters n1 v1 fs.
Proof.
  unfold inputNames. intros H1 H2.
  repeat (destruct H1 as [<-|H1]; [|]); try destruct H1;
    (split; [|reflexivity]);
    repeat (destruct H2 as [<-|H2]; [|]); try destruct H2;
    intros Hne; try reflexivity; contradiction.
Qed.

Lemma filter_edits_are_independent_witness :
  In "yearRange.end" inputNames /\ In "revenueRange.min" inputNames
  /\ "yearRange.end" <> "revenueRange.min"
  /\ newFilters "yearRange.end" "2022"
       (newFilters "revenueRange.min" "10" initialFilters)
     = newFilters "revenueRange.min" "10"
         (newFilters "yearRange.end" "2022" initialFilters).
Proof.
  assert (H1 : In "yearRange.end" inputNames) by (simpl; tauto).
  assert (H2 : In "revenueRange.min" inputNames) by (simpl; tauto).
  assert (H3 : "yearRange.end" <> "revenueRange.min") by discriminate.
  repeat (split; [assumption|]).
  exact (proj1 (filter_edits_are_independent "yearRange.end"
                  "revenueRange.min" "2022" "10" initialFilters H1 H2) H3).
Defined.

(** ** Reading the text of an input *)

Lemma radix_digits_clean_tail s : clean_tail s = true -> radix_digits 10 s = [].
Proof.
  destruct s as [|c t]; [reflexivity|]. cbn [clean_tail radix_digits].
  rewrite !andb_true_iff, !negb_true_iff. intros [[Hd _] _].
  pose proof (digit_value_not_decimal _ Hd) as Hv.
  destruct (digit_value c) as [v|]; [|reflexivity].
  replace (v <? 10) with false by lia. reflexivity.
Qed.

Lemma radix_digits_uint d s :
  clean_tail s = true ->
  radix_digits 10 (NilEmpty.string_of_uint d ++ s) = uint_digits d.
Proof.
  intros Hs. induction d; cbn [NilEmpty.string_of_uint String.append];
    [now apply radix_digits_clean_tail|..];
    cbn [radix_digits uint_digits]; rewrite IHd; reflexivity.
Qed.

Lemma fold_uint_acc d acc :
  fold_left (fun a x => 10 * a + x) (uint_digits d) (Zpos acc)
  = Zpos (Pos.of_uint_acc d acc).
Proof.
  revert acc. induction d; intros acc; cbn [uint_digits fold_left Pos.of_uint_acc];
    [reflexivity|..];
    rewrite <- IHd; f_equal; lia.
Qed.

Lemma fold_uint d :
  fold_left (fun a x => 10 * a + x) (uint_digits d) 0 = Z.of_N (Pos.of_uint d).
Proof.
  induction d; cbn [uint_digits fold_left Pos.of_uint]; [reflexivity|exact IHd|..];
    cbn [Z.mul Z.add Z.of_N]; apply fold_uint_acc.
Qed.

Lemma string_of_uint_head d s :
  d <> Decimal.Nil -> clean_tail s = true ->
  exists c t,
    (NilEmpty.string_of_uint d ++ s)%string = String c t
    /\ is_decimal_digit c = true
    /\ has_hex_prefix (String c t) = false.
Proof.
  intros Hd Hs.
  assert (Htail : forall d', match (NilEmpty.string_of_uint d' ++ s)%string with
                             | String c1 _ =>
                                 (code c1 =? 120) || (code c1 =? 88) = false
                             | EmptyString => True
                             end).
  { intros d'. destruct d'; cbn [NilEmpty.string_of_uint String.append];
      try reflexivity.
    destruct s as [|c1 t1]; [exact I|]. cbn [clean_tail] in Hs.
    rewrite !andb_true_iff, !negb_true_iff in Hs.
    destruct Hs as [[_ H1] H2]. now rewrite H1, H2. }
  destruct d as [|d'|d'|d'|d'|d'|d'|d'|d'|d'|d']; [contradiction|..];
    cbn [NilEmpty.string_of_uint String.append];
    eexists _, _; (split; [reflexivity|]); (split; [reflexivity|]);
    cbn [has_hex_prefix]; specialize (Htail d');
    destruct (NilEmpty.string_of_uint d' ++ s)%string; try reflexivity;
    rewrite Htail; apply andb_false_r.
Qed.

Lemma number_of_Z_small_neg v : 0 <= v < 2 ^ 53 -> number_of_Z (- v) = Fin (- v).
Proof.
  intros Hv. destruct (Z.eq_dec v 0) as [->|Hne]; [reflexivity|].
  unfold number_of_Z, round_nearest_even_53.
  rewrite Z.abs_opp, Z.abs_eq by lia.
  replace (v <? 2 ^ 53) with true by lia.
  assert (2 ^ 53 < 2 ^ 1024) by (apply Z.pow_lt_mono_r; lia).
  replace (2 ^ 1024 <=? v) with false by lia.
  f_equal. rewrite Z.sgn_neg by lia. lia.
Qed.

Lemma parseInt_minus_digit_led c t :
  is_decimal_digit c = true ->
  has_hex_prefix (String c t) = false ->
  parseInt (String "-" (String c t))
  = match radix_digits 10 (String c t) with
    | [] => NaN
    | ds => number_of_Z (- digits_value 10 ds)
    end.
Proof.
  intros Hd Hhex. unfold parseInt.
  cbn [trim_start]. change (is_white_space "-") with false. cbv iota.
  cbn [sign_of strip_sign]. change (code "-" =? 45) with true.
  change (code "-" =? 43) with false. cbn [orb]. cbv iota.
  rewrite (strip_hex_prefix_none _ Hhex).
  destruct (radix_digits 10 (String c t)); [reflexivity|].
  f_equal; lia.
Qed.

Lemma decimal_digits z tail :
  0 <= z -> clean_tail tail = true ->
  exists c t,
    (decimal z ++ tail)%string = String c t
    /\ is_decimal_digit c = true
    /\ has_hex_prefix (String c t) = false
    /\ radix_digits 10 (String c t) <> []
    /\ digits_value 10 (radix_digits 10 (String c t)) = z.
Proof.
  intros Hz Ht. unfold decimal.
  set (d := N.to_uint (Z.to_N z)).
  assert (Hd : d <> Decimal.Nil).
  { unfold d. destruct (Z.to_N z); [discriminate|].
    apply DecimalPos.Unsigned.to_uint_nonnil. }
  assert (Hs : NilZero.string_of_uint d = NilEmpty.string_of_uint d).
  { destruct d; [contradiction|reflexivity..]. }
  rewrite Hs.
  destruct (string_of_uint_head d tail Hd Ht) as (c & t & Heq & Hc & Hhex).
  exists c, t. repeat split; auto.
  - cbn [radix_digits]. rewrite (digit_value_decimal _ Hc).
    unfold is_decimal_digit in Hc.
    replace (code c - 48 <? 10) with true by lia. discriminate.
  - rewrite <- Heq, (radix_digits_uint d tail Ht), digits_value_10, fold_uint.
    change (Pos.of_uint d) with (N.of_uint d). unfold d.
    rewrite DecimalN.Unsigned.of_to. lia.
Qed.

(** X9.  The text of an integer is stored as that integer.  For every
    integer [z] from 0 to 2^53 - 1, [parseInt] reads the decimal digits of
    [z] back as [z], and as [-z] after a minus sign, also when the digits
    are followed by a fraction or by other text that starts with neither a
    digit nor an [x]; so does the bound stored by a change event.  In
    particular choosing any of the five year options stores that year. *)
Theorem integer_text_is_stored_as_the_integer :
  (forall z tail,
      0 <= z < 2 ^ 53 -> clean_tail tail = true ->
      parseInt (decimal z ++ tail) = Fin z
      /\ parseInt (String "-" (decimal z ++ tail)) = Fin (- z)
      /\ forall k, boundValue k (decimal z ++ tail) = Fin z)
  /\ yearOptions = [2020; 2021; 2022; 2023; 2024]
  /\ (forall y st,
        In y yearOptions ->
        start (yearRange (filters
          (handleFilterChange "yearRange.start" (decimal y) st))) = Fin y
        /\ end_ (yearRange (filters
             (handleFilterChange "yearRange.end" (decimal y) st))) = Fin y).
Proof.
  assert (Hgen : forall z tail,
             0 <= z < 2 ^ 53 -> clean_tail tail = true ->
             parseInt (decimal z ++ tail) = Fin z
             /\ parseInt (String "-" (decimal z ++ tail)) = Fin (- z)
             /\ forall k, boundValue k (decimal z ++ tail) = Fin z).
  { intros z tail Hz Ht.
    destruct (decimal_digits z tail ltac:(lia) Ht)
      as (c & t & Heq & Hc & Hhex & Hne & Hval).
    rewrite Heq.
    assert (H1 : parseInt (String c t) = Fin z).
    { rewrite (parseInt_digit_led _ _ Hc Hhex).
      destruct (radix_digits 10 (String c t)); [contradiction|].
      rewrite Hval. now apply number_of_Z_small. }
    split; [exact H1|]. split.
    - rewrite (parseInt_minus_digit_led _ _ Hc Hhex).
      destruct (radix_digits 10 (String c t)); [contradiction|].
      rewrite Hval. now apply number_of_Z_small_neg.
    - intros k. unfold boundValue. cbn [String.eqb]. exact H1. }
  split; [exact Hgen|]. split; [reflexivity|].
  intros y st Hy. rewrite !handleFilterChange_filters.
  assert (Hb : forall k, boundValue k (decimal y) = Fin y).
  { assert (Hr : 0 <= y < 2 ^ 53).
    { unfold yearOptions in Hy. simpl in Hy.
      assert (2 ^ 53 = 9007199254740992) by reflexivity. lia. }
    intros k. destruct (Hgen y EmptyString Hr eq_refl) as (_ & _ & H).
    specialize (H k). now rewrite append_empty_r in H. }
  split.
  - change (start (yearRange (newFilters "yearRange.start" (decimal y)
                                (filters st))))
      with (boundValue (Some "start") (decimal y)). apply Hb.
  - change (end_ (yearRange (newFilters "yearRange.end" (decimal y)
                               (filters st))))
      with (boundValue (Some "end") (decimal y)). apply Hb.
Qed.

Lemma integer_text_is_stored_as_the_integer_witness :
  0 <= 1250 < 2 ^ 53 /\ clean_tail ".75" = true
  /\ decimal 1250 = "1250"
  /\ parseInt (decimal 1250 ++ ".75") = Fin 1250.
Proof.
  assert (H1 : 0 <= 1250 < 2 ^ 53).
  { assert (2 ^ 53 = 9007199254740992) by reflexivity. lia. }
  assert (H2 : clean_tail ".75" = true) by reflexivity.
  split; [exact H1|]. split; [exact H2|]. split; [reflexivity|].
  exact (proj1 (proj1 integer_text_is_stored_as_the_integer 1250 ".75" H1 H2)).
Defined.

(** ** The order the sort produces *)

Lemma js_lt_false_num_leq x y :
  x <> NaN -> y <> NaN -> js_lt y x = false <-> num_leq x y.
Proof.
  destruct x as [| |a|], y as [| |b|]; simpl; intros Hx Hy;
    try contradiction; try (split; [tauto|reflexivity]);
    try (split; [discriminate|tauto]).
  unfold js_lt, IsLessThan.
  destruct (Z.ltb_spec b a); split; intros; try discriminate; try lia; auto.
Qed.

(** X10.  When no record lacks the sort key (each sort key is a number
    other than NaN; a [null] amount counts as 0), sorting by a recognized
    key orders the records: ascending, no record has a larger key than a
    record after it; descending, none has a smaller key than a record
    after it. *)
Theorem sort_orders_the_records `{Host} (k : string)
    (records : list FinancialRecord) :
  recognized k = true -> keys_present k records ->
  StronglySorted (fun a b => num_leq (sortKey k a) (sortKey k b))
    (sortedData (ascending k) records)
  /\ StronglySorted (fun a b => num_leq (sortKey k b) (sortKey k a))
       (sortedData (descending k) records).
Proof.
  intros Hk Hkeys.
  assert (Hin : forall cfg x, In x (Array_sort (compareFn cfg) records) ->
                              sortKey k x <> NaN).
  { intros cfg x Hx. apply Array_sort_In_inv in Hx.
    unfold keys_present in Hkeys. rewrite Forall_forall in Hkeys. auto. }
  rewrite !sortedData_Array_sort. split.
  - apply (StronglySorted_impl_In (not_after (compareFn (ascending k)))).
    + intros x y Hx Hy. unfold not_after. rewrite after_by_key.
      cbn [ascending key direction]. rewrite Hk.
      change (String.eqb "asc" "asc") with true. cbv iota.
      apply js_lt_false_num_leq; eapply Hin; eauto.
    + apply Array_sort_ordered, keys_present_consistent. auto.
  - apply (StronglySorted_impl_In (not_after (compareFn (descending k)))).
    + intros x y Hx Hy. unfold not_after. rewrite after_by_key.
      cbn [descending key direction]. rewrite Hk.
      change (String.eqb "desc" "asc") with false. cbv iota.
      apply js_lt_false_num_leq; eapply Hin; eauto.
    + apply Array_sort_ordered, keys_present_consistent. auto.
Qed.

Lemma sort_orders_the_records_witness :
  recognized "date" = true /\ @keys_present iso_host "date" three_years
  /\ StronglySorted
       (fun a b => num_leq (@sortKey iso_host "date" a)
                           (@sortKey iso_host "date" b))
       (@sortedData iso_host (ascending "date") three_years).
Proof.
  assert (H1 : recognized "date" = true) by reflexivity.
  assert (H2 : @keys_present iso_host "date" three_years).
  { unfold keys_present, three_years. repeat constructor; discriminate. }
  split; [exact H1|]. split; [exact H2|].
  exact (proj1 (@sort_orders_the_records iso_host "date" three_years H1 H2)).
Defined.

(** X11.  A sort key that is not one of [date], [revenue] and [netIncome]
    (the empty key among them) leaves the records in their input order,
    in either direction: the comparator answers 0 for every pair. *)
Theorem unrecognized_key_keeps_the_order `{Host} (k d : string)
    (records : list FinancialRecord) :
  recognized k = false ->
  sortedData {| key := k; direction := d |} records = records.
Proof.
  intros Hk. rewrite sortedData_Array_sort. apply Array_sort_constant.
  intros a b. destruct (compareFn_cases {| key := k; direction := d |})
    as [E|[E|E]]; [apply E|..].
  - destruct (String.eqb_spec d "asc") as [->|Hd].
    + fold (ascending k). now rewrite compareFn_asc, Hk.
    + now rewrite (compareFn_desc _ _ _ _ Hd), compareFn_asc, Hk.
  - destruct (String.eqb_spec d "asc") as [->|Hd].
    + fold (ascending k). now rewrite compareFn_asc, Hk.
    + now rewrite (compareFn_desc _ _ _ _ Hd), compareFn_asc, Hk.
Qed.

Lemma unrecognized_key_keeps_the_order_witness :
  recognized "eps" = false
  /\ @sortedData iso_host {| key := "eps"; direction := "desc" |} three_years
     = three_years.
Proof.
  assert (H : recognized "eps" = false) by reflexivity.
  split; [exact H|].
  exact (@unrecognized_key_keeps_the_order iso_host "eps" "desc" three_years H).
Defined.

Lemma Array_sort_sorted_id {A} (comparefn : A -> A -> number) l :
  StronglySorted (not_after comparefn) l -> Array_sort comparefn l = l.
Proof.
  induction 1 as [|x t Ht IH Hx]; [reflexivity|].
  cbn [Array_sort fold_right]. fold (Array_sort comparefn t). rewrite IH.
  destruct t as [|y t']; [reflexivity|].
  apply Forall_cons_iff in Hx as [Hxy _]. unfold not_after, after in Hxy.
  cbn [insert_sorted]. now rewrite Hxy.
Qed.

(** X12.  Sorting is idempotent when no record lacks the sort key:
    sorting the sorted records again, with the same key and direction,
    changes nothing. *)
Theorem sorting_twice_is_sorting_once `{Host} (cfg : SortConfig)
    (records : list FinancialRecord) :
  (recognized (key cfg) = true -> keys_present (key cfg) records) ->
  sortedData cfg (sortedData cfg records) = sortedData cfg records.
Proof.
  intros Hk. rewrite !sortedData_Array_sort.
  apply Array_sort_sorted_id, Array_sort_ordered.
  now apply keys_present_consistent.
Qed.

Lemma sorting_twice_is_sorting_once_witness :
  (recognized (key (descending "revenue")) = true ->
   @keys_present iso_host (key (descending "revenue")) three_years)
  /\ @sortedData iso_host (descending "revenue")
       (@sortedData iso_host (descending "revenue") three_years)
     = @sortedData iso_host (descending "revenue") three_years.
Proof.
  assert (H : recognized (key (descending "revenue")) = true ->
              @keys_present iso_host (key (descending "revenue")) three_years).
  { intros _. unfold keys_present, three_years.
    repeat constructor; discriminate. }
  split; [exact H|].
  exact (@sorting_twice_is_sorting_once iso_host (descending "revenue")
           three_years H).
Defined.

(** ** The marks on the headers *)

(** X13.  After a click on header [k], no other header carries a mark,
    and header [k] carries exactly one: the up mark when the new direction
    is ascending, the down mark otherwise.  No configuration puts both
    marks on a header. *)
Theorem clicked_header_carries_the_mark (k : string) (st : State) :
  let cfg := sortConfig (handleSort k st) in
  (forall k', k' <> k -> headerMarks k' cfg = {| up := false; down := false |})
  /\ up (headerMarks k cfg) = negb (down (headerMarks k cfg))
  /\ (up (headerMarks k cfg) = true <-> direction cfg = "asc")
  /\ (forall k' c, up (headerMarks k' c) && down (headerMarks k' c) = false).
Proof.
  intros cfg.
  assert (Hkey : key cfg = k) by reflexivity.
  assert (Hdir : direction cfg = "asc" \/ direction cfg = "desc").
  { unfold cfg. rewrite handleSort_config. destruct (_ && _); auto. }
  repeat split.
  - intros k' Hne. unfold headerMarks. rewrite Hkey.
    destruct (String.eqb_spec k k'); [congruence|reflexivity].
  - unfold headerMarks. rewrite Hkey, String.eqb_refl. cbn [up down andb].
    destruct Hdir as [-> | ->]; reflexivity.
  - unfold headerMarks. rewrite Hkey, String.eqb_refl. cbn [up andb].
    apply String.eqb_eq.
  - unfold headerMarks. rewrite Hkey, String.eqb_refl. cbn [up andb].
    apply String.eqb_eq.
  - intros k' c. unfold headerMarks. cbn [up down].
    destruct (String.eqb (key c) k'); [|reflexivity]. cbn [andb].
    destruct (String.eqb_spec (direction c) "asc") as [->|]; reflexivity.
Qed.

Lemma clicked_header_carries_the_mark_witness :
  "date" <> "revenue"
  /\ headerMarks "date" (sortConfig (handleSort "revenue" initialState))
     = {| up := false; down := false |}.
Proof.
  assert (H : "date" <> "revenue") by discriminate.
  split; [exact H|].
  exact (proj1 (clicked_header_carries_the_mark "revenue" initialState)
           "date" H).
Defined.

(** ** Missing values in the formatter *)

Lemma not_NA (f : string) : (f ++ " B")%string <> "N/A".
Proof.
  destruct f as [|a [|b [|c [|d f']]]]; cbn [String.append];
    intros E; try discriminate E; injection E; intros; discriminate.
Qed.

Lemma formatToBillions_number n :
  exists f, formatToBillions (Num n) = Normal (f ++ " B")%string.
Proof.
  unfold formatToBillions, toFixed.
  change ((3 <? 0) || (100 <? 3)) with false. cbv iota.
  destruct (binary64_div _ _) as [sz|[|]| |sx m e];
    try (eexists; reflexivity).
  destruct ((0 <=? e) && (10 ^ 21 <=? Z.pos m * 2 ^ e));
    eexists; reflexivity.
Qed.

Lemma formatToBillions_NA_iff v :
  formatToBillions v = Normal "N/A" <-> v = Null \/ v = Undefined.
Proof.
  split.
  - destruct v as [| |n]; auto. intros E.
    destruct (formatToBillions_number n) as (f & Hf). rewrite Hf in E.
    injection E as E. now apply not_NA in E.
  - intros [-> | ->]; reflexivity.
Qed.

(** X14.  The formatter answers ["N/A"] for [null] and [undefined] and
    for nothing else: every number, zero included, is formatted as text
    that ends in [" B"]; zero is ["0.000 B"]. *)
Theorem NA_only_for_missing_values (v : value) :
  (formatToBillions v = Normal "N/A" <-> v = Null \/ v = Undefined)
  /\ (forall n, v = Num n ->
        exists f, formatToBillions v = Normal (f ++ " B")%string)
  /\ formatToBillions (Num (Fin 0)) = Normal "0.000 B".
Proof.
  split; [apply formatToBillions_NA_iff|]. split.
  - intros n ->. apply formatToBillions_number.
  - vm_compute. reflexivity.
Qed.

Lemma NA_only_for_missing_values_witness :
  exists f, formatToBillions (Num (Fin 0)) = Normal (f ++ " B")%string.
Proof.
  exact (proj1 (proj2 (NA_only_for_missing_values (Num (Fin 0))))
           (Fin 0) eq_refl).
Defined.

(** ** Dates without a year *)

Lemma before_keeps_head c t :
  Ascii.eqb c "-" = false ->
  first_piece (split "-" (String c t)) = String c (before "-" t).
Proof. intros Hc. rewrite first_piece_split. cbn [before]. now rewrite Hc. Qed.

(** X15.  A record whose date does not begin with a year is excluded
    under every criteria, because its year is NaN: so it is when the date
    is empty, when it begins with [-], and when it begins with any
    character other than a digit, a plus sign or white space. *)
Theorem dates_without_a_year_are_excluded (fs : Filters) (r : FinancialRecord) :
  (date r = EmptyString
   \/ (exists t, date r = String "-" t)
   \/ (exists c t, date r = String c t
                   /\ is_decimal_digit c = false
                   /\ is_white_space c = false
                   /\ code c <> 43)) ->
  parseInt (first_piece (split "-" (date r))) = NaN
  /\ filterCallback fs r = false.
Proof.
  intros Hd.
  assert (Hy : parseInt (first_piece (split "-" (date r))) = NaN).
  { destruct Hd as [-> |[(t & ->)|(c & t & -> & Hdig & Hws & Hplus)]].
    - reflexivity.
    - reflexivity.
    - destruct (Ascii.eqb_spec c "-") as [->|Hne]; [reflexivity|].
      assert (Hc : Ascii.eqb c "-" = false)
        by (destruct (Ascii.eqb_spec c "-"); [contradiction|reflexivity]).
      rewrite (before_keeps_head _ _ Hc). unfold parseInt.
      cbn [trim_start]. rewrite Hws. cbn [sign_of strip_sign].
      assert (Hm : (code c =? 45) = false).
      { apply Z.eqb_neq. intros E. apply Hne.
        rewrite <- (ascii_nat_embedding c), <- (ascii_nat_embedding "-").
        f_equal. unfold code in E. change (nat_of_ascii "-") with 45%nat. lia. }
      rewrite Hm. replace (code c =? 43) with false by lia. cbn [orb].
      assert (Hhex : has_hex_prefix (String c (before "-" t)) = false).
      { unfold has_hex_prefix. unfold is_decimal_digit in Hdig.
        destruct (before "-" t); [reflexivity|].
        replace (code c =? 48) with false by lia. reflexivity. }
      rewrite (strip_hex_prefix_none _ Hhex). cbn [radix_digits].
      pose proof (digit_value_not_decimal _ Hdig) as Hv.
      destruct (digit_value c) as [v|]; [|reflexivity].
      replace (v <? 10) with false by lia. reflexivity. }
  split; [exact Hy|]. unfold filterCallback. rewrite Hy. reflexivity.
Qed.

Lemma dates_without_a_year_are_excluded_witness :
  (exists t, date bce_record = String "-" t)
  /\ filterCallback initialFilters bce_record = false.
Proof.
  assert (H : exists t, date bce_record = String "-" t)
    by (eexists; reflexivity).
  split; [exact H|].
  exact (proj2 (dates_without_a_year_are_excluded initialFilters bce_record
                  (or_intror (or_introl H)))).
Defined.

(** ** The rows of the table *)

Lemma renderRows_borders len index items :
  (index + List.length items = len)%nat ->
  map borderBottom (renderRows len index items)
  = match items with
    | [] => []
    | _ :: rest => repeat true (List.length rest) ++ [false]
    end.
Proof.
  revert index. induction items as [|item rest IH]; intros index Hlen;
    [reflexivity|].
  cbn [renderRows map borderBottom List.length] in *.
  rewrite (IH (S index)) by lia.
  destruct rest as [|item' rest'].
  - cbn [List.length repeat app] in *.
    replace (index =? len - 1)%nat with true
      by (symmetry; apply Nat.eqb_eq; lia).
    reflexivity.
  - cbn [List.length repeat app] in *.
    replace (index =? len - 1)%nat with false
      by (symmetry; apply Nat.eqb_neq; lia).
    reflexivity.
Qed.

(** X16.  In the table every row but the last has a bottom border, and
    the last row has none; each row shows the date of its record as it
    is, and ["N/A"] in an amount column exactly when the record has
    [null] or no value there. *)
Theorem rows_of_the_table (items : list FinancialRecord) :
  let rs := renderRows (List.length items) 0 items in
  map borderBottom rs
  = match items with
    | [] => []
    | _ :: rest => repeat true (List.length rest) ++ [false]
    end
  /\ map dateCell rs = map date items
  /\ Forall2 (fun row item =>
                (revenueCell row = Normal "N/A"
                 <-> revenue item = Null \/ revenue item = Undefined)
                /\ (netIncomeCell row = Normal "N/A"
                    <-> netIncome item = Null \/ netIncome item = Undefined)
                /\ (grossProfitCell row = Normal "N/A"
                    <-> grossProfit item = Null \/ grossProfit item = Undefined)
                /\ (operatingIncomeCell row = Normal "N/A"
                    <-> operatingIncome item = Null
                        \/ operatingIncome item = Undefined)
                /\ epsCell row = eps item)
             rs items.
Proof.
  intros rs. split; [|split].
  - apply renderRows_borders. reflexivity.
  - apply renderRows_dates.
  - subst rs. generalize (List.length items) as len. generalize 0%nat as index.
    induction items as [|item rest IH]; intros index len; [constructor|].
    cbn [renderRows]. constructor; [|apply IH].
    cbn [revenueCell netIncomeCell grossProfitCell operatingIncomeCell epsCell].
    repeat split; try apply formatToBillions_NA_iff.
Qed.
